(** * A shallow embedding of [src/screenshot_automation.py]

    The class [APClassroomOCR] drives a browser through a sequence of
    questions: [extract_question_and_answers] runs an in-page script that
    collects the question stem and answer options from the DOM, validates
    and de-duplicates the result and formats it; [run_automation] loops over
    the items, recording either the formatted text or a placeholder, and
    clicks "next"; [save_results] writes the records to a text file.

    Strings are sequences of Unicode code points ([text := list Z]); the
    JavaScript [length] of a string counts UTF-16 code units, Python's [len]
    counts code points. The browser is an external collaborator: a page is
    the data the driver reports for one item (the results of the three
    [querySelectorAll] calls of the script, whether [readyState] becomes
    complete, whether the script raises, whether the "next" button can be
    clicked). Python's [hash] on [str] is an abstract function [py_hash]
    (it is seeded per process). *)

From Stdlib Require Import ZArith List String Ascii Bool Lia QArith.
Import ListNotations.

Local Open Scope nat_scope.
Local Open Scope bool_scope.

(* ------------------------------------------------------------------ *)
(** ** Text *)

Definition text := list Z.

(** ASCII literals as code point sequences. *)
Fixpoint t (s : string) : text :=
  match s with
  | EmptyString => []
  | String c s' => Z.of_nat (nat_of_ascii c) :: t s'
  end.

Definition nl : Z := 10%Z.

Fixpoint text_eqb (a b : text) : bool :=
  match a, b with
  | [], [] => true
  | x :: a', y :: b' => Z.eqb x y && text_eqb a' b'
  | _, _ => false
  end.

Lemma text_eqb_eq (a b : text) : text_eqb a b = true <-> a = b.
Proof.
  revert b; induction a as [|x a IH]; intros [|y b]; simpl;
    try (split; congruence).
  rewrite andb_true_iff, Z.eqb_eq, IH. split; [intros [-> ->]; reflexivity|].
  intros H; injection H; auto.
Qed.

(** [String.prototype.length]: UTF-16 code units. *)
Definition js_units (c : Z) : nat := if (65535 <? c)%Z then 2 else 1.
Definition js_length (s : text) : nat :=
  fold_right (fun c n => js_units c + n) 0 s.

(** JavaScript [\s] (WhiteSpace and LineTerminator), also what [trim]
    removes. *)
Definition is_js_space (c : Z) : bool :=
  (c =? 9)%Z || (c =? 10)%Z || (c =? 11)%Z || (c =? 12)%Z || (c =? 13)%Z
  || (c =? 32)%Z || (c =? 160)%Z || (c =? 5760)%Z
  || ((8192 <=? c)%Z && (c <=? 8202)%Z)
  || (c =? 8232)%Z || (c =? 8233)%Z || (c =? 8239)%Z || (c =? 8287)%Z
  || (c =? 12288)%Z || (c =? 65279)%Z.

Fixpoint drop_space (s : text) : text :=
  match s with
  | c :: r => if is_js_space c then drop_space r else s
  | [] => []
  end.

(** [String.prototype.trim] *)
Definition js_trim (s : text) : text := rev (drop_space (rev (drop_space s))).

(** [[A-E]] and the circled letters [[ⒶⒷⒸⒹⒺ]] (U+24B6..U+24BA). *)
Definition is_AE (c : Z) : bool := (65 <=? c)%Z && (c <=? 69)%Z.
Definition is_circled_AE (c : Z) : bool := (9398 <=? c)%Z && (c <=? 9402)%Z.

(** JavaScript [\w] (no [u] flag): [[A-Za-z0-9_]]. *)
Definition is_word_char (c : Z) : bool :=
  ((48 <=? c)%Z && (c <=? 57)%Z) || ((65 <=? c)%Z && (c <=? 90)%Z)
  || ((97 <=? c)%Z && (c <=? 122)%Z) || (c =? 95)%Z.

(** Case folding of an [/i] regular expression without the [u] flag only
    relates ASCII letters to ASCII letters. *)
Definition to_lower (c : Z) : Z :=
  if (65 <=? c)%Z && (c <=? 90)%Z then (c + 32)%Z else c.

(** [w] (lower case) is a case-insensitive prefix of [s]. *)
Fixpoint prefix_ci (w s : text) : bool :=
  match w, s with
  | [], _ => true
  | x :: w', y :: s' => Z.eqb x (to_lower y) && prefix_ci w' s'
  | _ :: _, [] => false
  end.

(* ------------------------------------------------------------------ *)
(** ** The page, as reported by the driver *)

(** A DOM element: its [innerText], [textContent], the width and height of
    [getBoundingClientRect()] and its [children]. *)
Inductive Elem : Type := mkElem {
  el_innerText : text;
  el_textContent : text;
  el_width : Q;
  el_height : Q;
  el_children : list Elem
}.

(** [elem.innerText || elem.textContent || ''] *)
Definition elem_text (e : Elem) : text :=
  match el_innerText e with
  | [] => el_textContent e
  | s => s
  end.

Definition qgt (x c : Q) : bool := negb (Qle_bool x c).

Record Page := mkPage {
  (** [document.readyState == "complete"] within the 10 s of
      [wait_for_load] *)
  pg_ready : bool;
  (** [driver.execute_script] returns (it raises otherwise) *)
  pg_script_ok : bool;
  (** [querySelectorAll('button, div[role="button"], label, div')] *)
  pg_answer_query : list Elem;
  (** [querySelectorAll('div, button')] *)
  pg_container_query : list Elem;
  (** [querySelectorAll('p, div, span, h1, h2, h3')] *)
  pg_text_query : list Elem;
  (** the "next" button becomes clickable within 5 s and [click()]
      returns *)
  pg_next_ok : bool
}.

(* ------------------------------------------------------------------ *)
(** ** The in-page script [extractQuestionData] (lines 73-207) *)

(** [hasAnswerPattern]:
    [/^[ⒶⒷⒸⒹⒺABCDEⒶⒷⒸⒹⒺ]\s+/.test(text) || /^\([A-E]\)\s+/.test(text)
     || /^[A-E]\s{2,}/.test(text)] *)
Definition has_answer_pattern (s : text) : bool :=
  match s with
  | c :: d :: _ => (is_circled_AE c || is_AE c) && is_js_space d
  | _ => false
  end
  || match s with
     | 40%Z :: c :: 41%Z :: d :: _ => is_AE c && is_js_space d
     | _ => false
     end
  || match s with
     | c :: d :: e :: _ => is_AE c && is_js_space d && is_js_space e
     | _ => false
     end.

(** Strategy 1: one pushed text per matching, visible element. *)
Definition strategy1 (allElements : list Elem) : list text :=
  flat_map (fun elem =>
    let text := js_trim (elem_text elem) in
    if has_answer_pattern text && (5 <? js_length text) && (js_length text <? 500)
    then if qgt (el_width elem) (100 # 1) && qgt (el_height elem) (20 # 1)
         then [text] else []
    else []) allElements.

(** [/^[A-E]$/.test(firstText)] *)
Definition is_single_AE (s : text) : bool :=
  match s with
  | [c] => is_AE c
  | _ => false
  end.

(** Strategy 2: containers whose first child is a lone letter. *)
Definition strategy2 (containers : list Elem) : list text :=
  flat_map (fun container =>
    match el_children container with
    | firstChild :: _ :: _ =>
        let text := elem_text container in
        let firstText := js_trim (elem_text firstChild) in
        if is_single_AE firstText && (10 <? js_length text) && (js_length text <? 500)
        then if qgt (el_width container) (100 # 1) && qgt (el_height container) (20 # 1)
             then [js_trim text] else []
        else []
    | _ => []
    end) containers.

(** The three [replace] calls and [trim] of the cleaning loop. A [^]
    anchored pattern without the [m] flag only matches at index 0, so the
    [g] flag removes at most one occurrence. *)
Definition clean_answer (s : text) : text :=
  (* /^[ⒶⒷⒸⒹⒺⒶⒷⒸⒹⒺ]\s*/g *)
  let s1 := match s with
            | c :: r => if is_circled_AE c then drop_space r else s
            | [] => []
            end in
  (* /^\([A-E]\)\s*/g *)
  let s2 := match s1 with
            | 40%Z :: c :: 41%Z :: r => if is_AE c then drop_space r else s1
            | _ => s1
            end in
  (* /^[A-E]\s+/g *)
  let s3 := match s2 with
            | c :: d :: r => if is_AE c && is_js_space d then drop_space r else s2
            | _ => s2
            end in
  js_trim s3.

Definition text_mem (x : text) (l : list text) : bool := existsb (text_eqb x) l.

(** The cleaning and de-duplication loop. [seenTexts] always holds exactly
    the texts pushed to [result.answers], so one list plays both roles. *)
Fixpoint collect_answers (answers : list text) (items : list text) : list text :=
  match items with
  | [] => answers
  | item :: rest =>
      let cleanText := clean_answer item in
      if (5 <? js_length cleanText) && negb (text_mem cleanText answers)
      then collect_answers (answers ++ [cleanText]) rest
      else collect_answers answers rest
  end.

(** [/\b(which|what|how|who|when|where|following)\b/i] *)
Definition question_words : list text :=
  [t "which"; t "what"; t "how"; t "who"; t "when"; t "where"; t "following"].

Definition next_is_word (s : text) : bool :=
  match s with
  | c :: _ => is_word_char c
  | [] => false
  end.

(** Scan left to right; [prev_word] says whether the previous character is
    a word character (a word boundary precedes the match iff it is not). *)
Fixpoint word_search (prev_word : bool) (s : text) : bool :=
  match s with
  | [] => false
  | c :: r =>
      (negb prev_word
       && existsb (fun w => prefix_ci w s && negb (next_is_word (skipn (List.length w) s)))
                  question_words)
      || word_search (is_word_char c) r
  end.

Definition has_question_markers (s : text) : bool :=
  existsb (Z.eqb 63) s || word_search false s.

(** [/^(Question|Mark for Review|Highlights|Notes|More|Option|Bookmark)/i] *)
Definition ui_words : list text :=
  [t "question"; t "mark for review"; t "highlights"; t "notes"; t "more";
   t "option"; t "bookmark"].

Definition is_not_ui_element (s : text) : bool :=
  negb (existsb (fun w => prefix_ci w s) ui_words).

Record Candidate := mkCandidate {
  cand_text : text;
  cand_length : nat;
  cand_hasQuestion : bool
}.

Definition question_candidates (textElements : list Elem) : list Candidate :=
  flat_map (fun elem =>
    let text := js_trim (elem_text elem) in
    if has_question_markers text && (30 <? js_length text)
       && (js_length text <? 1000) && is_not_ui_element text
    then if qgt (el_width elem) (200 # 1)
         then [{| cand_text := text; cand_length := js_length text;
                  cand_hasQuestion := existsb (Z.eqb 63) text |}]
         else []
    else []) textElements.

(** The comparator passed to [sort]. *)
Definition cand_cmp (a b : Candidate) : Z :=
  if cand_hasQuestion a && negb (cand_hasQuestion b) then (-1)%Z
  else if negb (cand_hasQuestion a) && cand_hasQuestion b then 1%Z
  else (Z.abs (Z.of_nat (cand_length a) - 150) - Z.abs (Z.of_nat (cand_length b) - 150))%Z.

(** [Array.prototype.sort] is stable (ES2019); the comparator compares the
    key (has '?', distance of the length to 150), so stable insertion sort
    computes the same array. *)
Fixpoint cand_insert (x : Candidate) (l : list Candidate) : list Candidate :=
  match l with
  | [] => [x]
  | y :: r => if (cand_cmp x y <? 0)%Z then x :: l else y :: cand_insert x r
  end.

Definition cand_sort (l : list Candidate) : list Candidate :=
  fold_left (fun acc x => cand_insert x acc) l [].

Definition pick_question (textElements : list Elem) : text :=
  match cand_sort (question_candidates textElements) with
  | c :: _ => cand_text c
  | [] => []
  end.

(** The value returned by the script ([debug] is only printed). *)
Record ScriptData := mkScriptData {
  sd_question : text;
  sd_answers : list text
}.

Definition extractQuestionData (pg : Page) : ScriptData :=
  let answerElements :=
    match strategy1 (pg_answer_query pg) with
    | [] => strategy2 (pg_container_query pg)
    | ae => ae
    end in
  {| sd_question := pick_question (pg_text_query pg);
     sd_answers := firstn 5 (collect_answers [] answerElements) |}.

(* ------------------------------------------------------------------ *)
(** ** Formatting (lines 231-239) *)

Definition letters : list Z := [65; 66; 67; 68; 69]%Z.

(** [for idx, ans in enumerate(answers): formatted += f"{letters[idx]}. {ans}\n"];
    the loop only runs over [answers[:5]], so [letters[idx]] never raises. *)
Fixpoint format_answers (idx : nat) (answers : list text) (formatted : text) : text :=
  match answers with
  | [] => formatted
  | ans :: rest =>
      format_answers (S idx) rest
        (formatted ++ [nth idx letters 0%Z] ++ t ". " ++ ans ++ [nl])
  end.

Definition format_result (question : text) (answers : list text) : text :=
  format_answers 0 (firstn 5 answers) (question ++ [nl; nl]).

(** The formatting rule as the specification words it: the stem, a blank
    line, then each option on its own line behind its 1-indexed letter
    (the [k]-th letter is code point [64 + k]), options truncated to 5. *)
Fixpoint lettered_lines (k : nat) (opts : list text) : text :=
  match opts with
  | [] => []
  | o :: rest => [(64 + Z.of_nat k)%Z] ++ t ". " ++ o ++ [nl] ++ lettered_lines (S k) rest
  end.

Definition format_spec (stem : text) (opts : list text) : text :=
  stem ++ [nl] ++ [nl] ++ lettered_lines 1 (firstn 5 opts).

(* ------------------------------------------------------------------ *)
(** ** [extract_question_and_answers] (lines 65-245) *)

Section Extraction.

Variable py_hash : text -> Z.

(** Python truthiness of [self.last_question_hash] ([None] or an int). *)
Definition hash_truthy (h : option Z) : bool :=
  match h with
  | None => false
  | Some z => negb (z =? 0)%Z
  end.

Definition hash_eqb (h : Z) (last : option Z) : bool :=
  match last with
  | None => false
  | Some z => (h =? z)%Z
  end.

(** Result and new value of [self.last_question_hash]. An exception of
    [execute_script] is caught by [except Exception] and gives [None]. *)
Definition extract_question_and_answers (pg : Page) (last_question_hash : option Z)
    : option text * option Z :=
  if negb (pg_script_ok pg) then (None, last_question_hash) else
  let data := extractQuestionData pg in
  let question := sd_question data in
  let answers := sd_answers data in
  if (List.length question =? 0) || (List.length question <? 20)
  then (None, last_question_hash)
  else if (List.length answers =? 0) || (List.length answers <? 2)
  then (None, last_question_hash)
  else
    let question_hash := py_hash (firstn 100 question) in
    if hash_truthy last_question_hash && hash_eqb question_hash last_question_hash
    then (None, last_question_hash)
    else (Some (format_result question answers), Some question_hash).

End Extraction.

(* ------------------------------------------------------------------ *)
(** ** [run_automation] (lines 247-306) *)

Record Rec := mkRec {
  question_num : nat;
  rtext : text
}.

(** Decimal rendering of [str(n)]. *)
Fixpoint uint_digits (u : Decimal.uint) : text :=
  match u with
  | Decimal.Nil => []
  | Decimal.D0 u => 48%Z :: uint_digits u
  | Decimal.D1 u => 49%Z :: uint_digits u
  | Decimal.D2 u => 50%Z :: uint_digits u
  | Decimal.D3 u => 51%Z :: uint_digits u
  | Decimal.D4 u => 52%Z :: uint_digits u
  | Decimal.D5 u => 53%Z :: uint_digits u
  | Decimal.D6 u => 54%Z :: uint_digits u
  | Decimal.D7 u => 55%Z :: uint_digits u
  | Decimal.D8 u => 56%Z :: uint_digits u
  | Decimal.D9 u => 57%Z :: uint_digits u
  end.

Definition py_str_nat (n : nat) : text := uint_digits (Nat.to_uint n).

(** [f"[Unable to extract question {i + 1} - please check manually]\n\n"] *)
Definition placeholder (n : nat) : text :=
  t "[Unable to extract question " ++ py_str_nat n ++ t " - please check manually]"
  ++ [nl; nl].

(** Python truthiness of a [str]. *)
Definition str_truthy (s : text) : bool := negb (List.length s =? 0).

(** The record appended for item [i] (0-based) given the extraction
    result. *)
Definition record_for (i : nat) (extracted : option text) : Rec :=
  match extracted with
  | Some s => if str_truthy s then {| question_num := S i; rtext := s |}
              else {| question_num := S i; rtext := placeholder (S i) |}
  | None => {| question_num := S i; rtext := placeholder (S i) |}
  end.

(** Calls of the program to its collaborators, in order. The driver and
    Tesseract also offer a screenshot ([driver.save_screenshot]) and
    recognition ([pytesseract.image_to_string]); [run_automation] never
    calls them. *)
Inductive Ev : Type :=
| EvWaitLoad (i : nat) (ok : bool)
| EvExtract (i : nat) (result : option text)
| EvAppend (r : Rec)
| EvClick (i : nat) (ok : bool)
| EvScreenshot (i : nat)
| EvRecognize (i : nat).

Record State := mkState {
  ocr_results : list Rec;
  last_question_hash : option Z;
  trace : list Ev
}.

Definition init_state : State :=
  {| ocr_results := []; last_question_hash := None; trace := [] |}.

Definition add_events (st : State) (evs : list Ev) : State :=
  {| ocr_results := ocr_results st; last_question_hash := last_question_hash st;
     trace := trace st ++ evs |}.

(** [Finished]: [run_automation] returns (also after [break]); [Raised]:
    the [TimeoutException] of [wait_for_load] propagates. *)
Inductive Outcome := Finished | Raised.

Section Run.

Variable py_hash : text -> Z.
Variable max_clicks : nat.
(** The page shown during iteration [i]. *)
Variable pages : nat -> Page.

Fixpoint run_loop (fuel i : nat) (st : State) : Outcome * State :=
  match fuel with
  | O => (Finished, st)
  | S fuel' =>
      let pg := pages i in
      if negb (pg_ready pg) then (Raised, add_events st [EvWaitLoad i false]) else
      let '(extracted_text, h') :=
        extract_question_and_answers py_hash pg (last_question_hash st) in
      let r := record_for i extracted_text in
      let st1 := {| ocr_results := ocr_results st ++ [r];
                    last_question_hash := h';
                    trace := trace st ++ [EvWaitLoad i true; EvExtract i extracted_text;
                                          EvAppend r] |} in
      if i <? max_clicks - 1 then
        if pg_next_ok pg then run_loop fuel' (S i) (add_events st1 [EvClick i true])
        else (Finished, add_events st1 [EvClick i false])  (* break *)
      else run_loop fuel' (S i) st1
  end.

(** [for i in range(max_clicks)] *)
Definition run_automation (st : State) : Outcome * State :=
  run_loop max_clicks 0 st.

End Run.

(* ------------------------------------------------------------------ *)
(** ** [save_results] (lines 308-321) and [main] (lines 328-378) *)

Definition rule (c : Z) : text := repeat c 80.

Definition result_block (r : Rec) : text :=
  t "QUESTION " ++ py_str_nat (question_num r) ++ [nl]
  ++ rule 45%Z ++ [nl] ++ rtext r ++ [nl].

(** The contents written to [output_file]. *)
Definition save_results (results : list Rec) : text :=
  rule 61%Z ++ [nl] ++ t "AP CLASSROOM - QUESTIONS & ANSWERS" ++ [nl]
  ++ rule 61%Z ++ [nl; nl] ++ List.concat (map result_block results).

(** The file written by [main] (on a fresh object), [None] when the
    exception of [run_automation] skips [save_results]. *)
Definition main_output (py_hash : text -> Z) (max_clicks : nat) (pages : nat -> Page)
    : option text :=
  match run_automation py_hash max_clicks pages init_state with
  | (Finished, st) => Some (save_results (ocr_results st))
  | (Raised, _) => None
  end.

(** [str.startswith] *)
Fixpoint starts_with (prefix s : text) : bool :=
  match prefix, s with
  | [], _ => true
  | x :: p, y :: s' => Z.eqb x y && starts_with p s'
  | _ :: _, [] => false
  end.

(** The summary of [main] (lines 360-361):
    [successful = len([r for r in ocr.ocr_results if not r['text'].startswith('[Unable')])]
    and [failed = MAX_CLICKS - successful] (a Python [int]). *)
Definition summary_successful (results : list Rec) : nat :=
  List.length (filter (fun r => negb (starts_with (t "[Unable") (rtext r))) results).

Definition summary_failed (max_clicks : nat) (results : list Rec) : Z :=
  (Z.of_nat max_clicks - Z.of_nat (summary_successful results))%Z.

(* ------------------------------------------------------------------ *)
(** ** The text normaliser *)

(** Modelled from the spec: [TextNormalizer.clean] (section 4.4) belongs to
    other versions of the script in this repository and is absent from
    [src/screenshot_automation.py]. Its rules, applied in the order the
    specification lists them: strip decorative glyphs; strip a leading
    non-word prefix in each line; collapse runs of whitespace to one space;
    remove whitespace immediately before punctuation; map [|] to [I] when a
    lower-case letter follows; drop lines with fewer than [min_words]
    word tokens (alphabetic runs of length at least 2) that are also
    shorter than [min_length]; trim each line. The glyph set and the two
    thresholds are left open by the specification and are parameters. *)
Module TextNormalizer.

Record Config := mkConfig {
  decorative : Z -> bool;
  min_words : nat;
  min_length : nat
}.

Fixpoint split_lines_acc (cur : text) (s : text) : list text :=
  match s with
  | [] => [rev cur]
  | c :: r => if (c =? 10)%Z then rev cur :: split_lines_acc [] r
              else split_lines_acc (c :: cur) r
  end.

Definition split_lines (s : text) : list text := split_lines_acc [] s.

Fixpoint join_lines (ls : list text) : text :=
  match ls with
  | [] => []
  | [l] => l
  | l :: rest => l ++ nl :: join_lines rest
  end.

Fixpoint strip_nonword_prefix (l : text) : text :=
  match l with
  | c :: r => if is_word_char c then l else strip_nonword_prefix r
  | [] => []
  end.

Fixpoint collapse_ws (prev_space : bool) (l : text) : text :=
  match l with
  | [] => []
  | c :: r =>
      if is_js_space c then
        (if prev_space then collapse_ws true r else 32%Z :: collapse_ws true r)
      else c :: collapse_ws false r
  end.

Definition is_punct (c : Z) : bool :=
  existsb (Z.eqb c) [46; 44; 59; 58; 33; 63; 41]%Z.

Fixpoint drop_ws_before_punct (l : text) : text :=
  match l with
  | c :: ((d :: _) as r) =>
      if is_js_space c && is_punct d then drop_ws_before_punct r
      else c :: drop_ws_before_punct r
  | _ => l
  end.

Definition is_lower (c : Z) : bool := (97 <=? c)%Z && (c <=? 122)%Z.
Definition is_alpha (c : Z) : bool := is_lower c || ((65 <=? c)%Z && (c <=? 90)%Z).

Fixpoint fix_bar (l : text) : text :=
  match l with
  | c :: ((d :: _) as r) =>
      if (c =? 124)%Z && is_lower d then 73%Z :: fix_bar r else c :: fix_bar r
  | _ => l
  end.

(** Number of alphabetic runs of length at least 2; [run] is the length of
    the run in progress. *)
Fixpoint word_tokens (run : nat) (l : text) : nat :=
  match l with
  | [] => if 2 <=? run then 1 else 0
  | c :: r =>
      if is_alpha c then word_tokens (S run) r
      else (if 2 <=? run then 1 else 0) + word_tokens 0 r
  end.

Definition keep_line (cfg : Config) (l : text) : bool :=
  negb ((word_tokens 0 l <? min_words cfg) && (List.length l <? min_length cfg)).

Definition clean_line (l : text) : text :=
  fix_bar (drop_ws_before_punct (collapse_ws false (strip_nonword_prefix l))).

Definition clean (cfg : Config) (s : text) : text :=
  let s1 := filter (fun c => negb (decorative cfg c)) s in
  let ls := map clean_line (split_lines s1) in
  join_lines (map js_trim (filter (keep_line cfg) ls)).

(** A configuration within the ranges of the specification: the copyright
    sign and the circled letters are decorative. *)
Definition sample_config : Config :=
  {| decorative := fun c => (c =? 169)%Z || ((9398 <=? c)%Z && (c <=? 9449)%Z);
     min_words := 2; min_length := 10 |}.

End TextNormalizer.

(* ------------------------------------------------------------------ *)
(** ** Sample pages *)

(** A visible element without children. *)
Definition leaf (s : text) : Elem := mkElem s [] (300 # 1) (50 # 1) [].

(** A question with three usable options; the option "C  Paris" is too
    short to be kept. *)
Definition sample_page : Page :=
  mkPage true true
    [leaf (t "A  London, England"); leaf (t "B  Berlin, Germany");
     leaf (t "C  Paris"); leaf (t "(D) Rome, Italy")]
    []
    [leaf (t "Question 1 of 5 which"); leaf (t "What is the capital city of France, the country in Europe?")]
    true.

(** A page on which the script finds nothing. *)
Definition blank_page : Page := mkPage true true [] [] [] true.

(** A stem of more than 100 characters, and two pages whose stems share
    it as their first 100 characters. *)
Definition long_prefix : text :=
  t "The following passage describes events. The following passage describes events. The following passage describes events. ".

Definition prefix_page (ending : string) : Page :=
  mkPage true true
    [leaf (t "A  London, England"); leaf (t "B  Berlin, Germany")]
    []
    [mkElem (long_prefix ++ t ending) [] (600 # 1) (80 # 1) []]
    true.

(** Two question stems: one with a question mark, one without. *)
Definition two_stem_page : Page :=
  mkPage true true
    [leaf (t "A  London, England"); leaf (t "B  Berlin, Germany")]
    []
    [leaf (t "Which of the following cities lies on the river Seine in France");
     leaf (t "What is the capital city of France, the country in Europe?")]
    true.

(* ================================================================== *)
(** * Properties *)

(* ------------------------------------------------------------------ *)
(** ** The answer list of the script *)

Lemma text_mem_false (x : text) (l : list text) :
  text_mem x l = false -> ~ In x l.
Proof.
  unfold text_mem. intros H Hin.
  assert (existsb (text_eqb x) l = true) as E.
  { apply existsb_exists. exists x. split; [exact Hin|]. apply text_eqb_eq. reflexivity. }
  congruence.
Qed.

Lemma collect_answers_inv (items acc : list text) :
  NoDup acc -> Forall (fun a => 5 < js_length a) acc ->
  NoDup (collect_answers acc items)
  /\ Forall (fun a => 5 < js_length a) (collect_answers acc items).
Proof.
  revert acc; induction items as [|it items IH]; intros acc Hnd Hlen; simpl.
  - auto.
  - destruct ((5 <? js_length (clean_answer it)) && negb (text_mem (clean_answer it) acc))
      eqn:E; apply IH; auto.
    + apply andb_true_iff in E as [E1 E2]. apply negb_true_iff in E2.
      apply NoDup_app; [exact Hnd| constructor; [intros []| constructor]|].
      intros a Ha [<-|[]]. exact (text_mem_false _ _ E2 Ha).
    + apply andb_true_iff in E as [E1 _]. apply Nat.ltb_lt in E1.
      apply Forall_app; split; [exact Hlen| constructor; [exact E1| constructor]].
Qed.

Lemma NoDup_firstn_gen {A : Type} (n : nat) (l : list A) :
  NoDup l -> NoDup (firstn n l).
Proof.
  intros H. rewrite <- (firstn_skipn n l) in H. exact (NoDup_app_remove_r _ _ H).
Qed.

Lemma Forall_firstn_gen {A : Type} (P : A -> Prop) (n : nat) (l : list A) :
  Forall P l -> Forall P (firstn n l).
Proof.
  intros H. rewrite <- (firstn_skipn n l) in H. apply Forall_app in H. tauto.
Qed.

(** Every answer of the script is distinct from the others and longer than
    5 UTF-16 code units. *)
Lemma script_answers_inv (pg : Page) :
  NoDup (sd_answers (extractQuestionData pg))
  /\ Forall (fun a => 5 < js_length a) (sd_answers (extractQuestionData pg)).
Proof.
  unfold extractQuestionData; cbn [sd_answers].
  destruct (collect_answers_inv
              (match strategy1 (pg_answer_query pg) with
               | [] => strategy2 (pg_container_query pg)
               | ae => ae end) [] (NoDup_nil _) (Forall_nil _)) as [H1 H2].
  split; [apply NoDup_firstn_gen | apply Forall_firstn_gen]; assumption.
Qed.

(* ------------------------------------------------------------------ *)
(** ** Shape of [extract_question_and_answers] *)

(** The cases in which a call accepts the page. *)
Lemma extract_some (py_hash : text -> Z) (pg : Page) (h : option Z) (s : text) (h' : option Z) :
  extract_question_and_answers py_hash pg h = (Some s, h') ->
  pg_script_ok pg = true
  /\ 20 <= List.length (sd_question (extractQuestionData pg))
  /\ 2 <= List.length (sd_answers (extractQuestionData pg))
  /\ s = format_result (sd_question (extractQuestionData pg)) (sd_answers (extractQuestionData pg))
  /\ h' = Some (py_hash (firstn 100 (sd_question (extractQuestionData pg))))
  /\ (hash_truthy h && hash_eqb (py_hash (firstn 100 (sd_question (extractQuestionData pg)))) h)
     = false.
Proof.
  unfold extract_question_and_answers.
  destruct (pg_script_ok pg); cbn [negb]; [|discriminate 1].
  set (q := sd_question (extractQuestionData pg)).
  set (a := sd_answers (extractQuestionData pg)).
  destruct ((List.length q =? 0) || (List.length q <? 20)) eqn:Eq; [discriminate 1|].
  destruct ((List.length a =? 0) || (List.length a <? 2)) eqn:Ea; [discriminate 1|].
  destruct (hash_truthy h && hash_eqb (py_hash (firstn 100 q)) h) eqn:Eh; [discriminate 1|].
  intros H; injection H as <- <-.
  apply orb_false_iff in Eq as [_ Eq]. apply orb_false_iff in Ea as [_ Ea].
  apply Nat.ltb_ge in Eq, Ea. repeat split; auto.
Qed.

Lemma extract_script_error (py_hash : text -> Z) (pg : Page) (h : option Z) :
  pg_script_ok pg = false -> extract_question_and_answers py_hash pg h = (None, h).
Proof. intros E. unfold extract_question_and_answers. rewrite E. reflexivity. Qed.

(* ------------------------------------------------------------------ *)
(** ** Formatting refines the specified layout *)

Lemma letters_nth (idx : nat) : idx < 5 -> nth idx letters 0%Z = (64 + Z.of_nat (S idx))%Z.
Proof.
  intros H. do 5 (destruct idx as [|idx]; [reflexivity|]). lia.
Qed.

Lemma format_answers_lines (answers : list text) (idx : nat) (acc : text) :
  idx + List.length answers <= 5 ->
  format_answers idx answers acc = acc ++ lettered_lines (S idx) answers.
Proof.
  revert idx acc; induction answers as [|a rest IH]; intros idx acc Hle;
    cbn [format_answers lettered_lines List.length] in *.
  - rewrite app_nil_r. reflexivity.
  - rewrite IH by lia. rewrite letters_nth by lia.
    rewrite <- !app_assoc. reflexivity.
Qed.

Lemma format_result_spec (q : text) (answers : list text) :
  format_result q answers = format_spec q answers.
Proof.
  unfold format_result, format_spec.
  rewrite format_answers_lines.
  - rewrite <- app_assoc. reflexivity.
  - apply firstn_le_length.
Qed.

(* ------------------------------------------------------------------ *)
(** ** The trace of [run_automation] *)

(** Every extraction is immediately followed by the append of its record,
    and no screenshot or recognition call is made. *)
Fixpoint trace_ok (tr : list Ev) : Prop :=
  match tr with
  | [] => True
  | EvExtract i r :: rest =>
      match rest with
      | EvAppend r' :: _ => r' = record_for i r
      | _ => False
      end /\ trace_ok rest
  | EvScreenshot _ :: _ => False
  | EvRecognize _ :: _ => False
  | _ :: rest => trace_ok rest
  end.

(** The trace does not stop right after an extraction. *)
Definition ends_ok (tr : list Ev) : Prop :=
  forall pre i r, tr <> pre ++ [EvExtract i r].

Lemma ends_ok_snoc (tr l : list Ev) (e : Ev) :
  (forall i r, e <> EvExtract i r) -> ends_ok (tr ++ l ++ [e]).
Proof.
  intros He pre i r H. rewrite app_assoc in H. apply app_inj_tail in H as [_ H].
  exact (He i r H).
Qed.

Lemma ends_ok_tail (e : Ev) (a : list Ev) : ends_ok (e :: a) -> ends_ok a.
Proof.
  intros Hend pre i r E. apply (Hend (e :: pre) i r). rewrite E. reflexivity.
Qed.

Lemma trace_ok_app (a b : list Ev) :
  trace_ok a -> trace_ok b -> ends_ok a -> trace_ok (a ++ b).
Proof.
  induction a as [|e a IH]; intros Ha Hb Hend; [exact Hb|].
  pose proof (ends_ok_tail _ _ Hend) as Hend'.
  destruct e; simpl in Ha |- *; try contradiction; try (apply IH; assumption).
  destruct Ha as [Hhd Ha]. destruct a as [|e a].
  - exfalso. exact (Hend [] i result eq_refl).
  - split; [destruct e; exact Hhd|]. apply IH; assumption.
Qed.

Lemma trace_ok_block (i : nat) (x : option text) :
  trace_ok [EvWaitLoad i true; EvExtract i x; EvAppend (record_for i x)].
Proof. simpl. auto. Qed.

Lemma record_for_num (i : nat) (x : option text) : question_num (record_for i x) = S i.
Proof. destruct x as [s|]; simpl; [destruct (str_truthy s)|]; reflexivity. Qed.

Section RunProps.

Variable py_hash : text -> Z.
Variable N : nat.
Variable pages : nat -> Page.

Lemma run_loop_trace_ok (fuel i : nat) (st : State) :
  trace_ok (trace st) -> ends_ok (trace st) ->
  trace_ok (trace (snd (run_loop py_hash N pages fuel i st)))
  /\ ends_ok (trace (snd (run_loop py_hash N pages fuel i st))).
Proof.
  revert i st; induction fuel as [|fuel IH]; intros i st Hok Hend; [split; assumption|].
  cbn [run_loop].
  destruct (pg_ready (pages i)); cbn [negb].
  2:{ simpl. split.
      - apply trace_ok_app; simpl; auto.
      - change [EvWaitLoad i false] with ([] ++ [EvWaitLoad i false]).
        apply ends_ok_snoc. discriminate. }
  destruct (extract_question_and_answers py_hash (pages i) (last_question_hash st)) as [x h'].
  assert (Hok1 : trace_ok (trace st ++ [EvWaitLoad i true; EvExtract i x; EvAppend (record_for i x)]))
    by (apply trace_ok_app; [exact Hok | apply trace_ok_block | exact Hend]).
  assert (Hend1 : ends_ok (trace st ++ [EvWaitLoad i true; EvExtract i x; EvAppend (record_for i x)])).
  { change [EvWaitLoad i true; EvExtract i x; EvAppend (record_for i x)]
      with ([EvWaitLoad i true; EvExtract i x] ++ [EvAppend (record_for i x)]).
    apply ends_ok_snoc. discriminate. }
  assert (Hclick : forall b, trace_ok (trace st ++ [EvWaitLoad i true; EvExtract i x;
                                      EvAppend (record_for i x)] ++ [EvClick i b])
                        /\ ends_ok (trace st ++ [EvWaitLoad i true; EvExtract i x;
                                      EvAppend (record_for i x)] ++ [EvClick i b])).
  { intros b. split.
    - rewrite app_assoc. apply trace_ok_app; simpl; auto.
    - rewrite app_assoc. change [EvClick i b] with ([] ++ [EvClick i b]).
      apply ends_ok_snoc. discriminate. }
  destruct (i <? N - 1); [destruct (pg_next_ok (pages i))|].
  - apply IH; simpl; rewrite <- app_assoc; apply Hclick.
  - simpl. rewrite <- app_assoc. apply Hclick.
  - apply IH; assumption.
Qed.

Lemma run_trace_ok :
  trace_ok (trace (snd (run_automation py_hash N pages init_state)))
  /\ ends_ok (trace (snd (run_automation py_hash N pages init_state))).
Proof.
  apply run_loop_trace_ok; simpl; [exact I|]. intros pre i r H.
  destruct pre; discriminate.
Qed.

(** When every page loads and every "next" click succeeds, the loop runs
    to its end and numbers its records [1..N]. *)
Lemma run_loop_all_ok (fuel i : nat) (st : State) :
  i + fuel = N ->
  (forall j, i <= j < N -> pg_ready (pages j) = true) ->
  (forall j, i <= j -> S j < N -> pg_next_ok (pages j) = true) ->
  map question_num (ocr_results st) = seq 1 i ->
  fst (run_loop py_hash N pages fuel i st) = Finished
  /\ map question_num (ocr_results (snd (run_loop py_hash N pages fuel i st))) = seq 1 N.
Proof.
  revert i st; induction fuel as [|fuel IH]; intros i st Hfuel Hready Hnext Hnum.
  - simpl. rewrite Nat.add_0_r in Hfuel. subst. auto.
  - cbn [run_loop]. rewrite Hready by lia. cbn [negb].
    destruct (extract_question_and_answers py_hash (pages i) (last_question_hash st)) as [x h'].
    assert (Hnum1 : map question_num (ocr_results st ++ [record_for i x]) = seq 1 (S i)).
    { rewrite map_app, Hnum, seq_S. cbn [map]. rewrite record_for_num. reflexivity. }
    destruct (i <? N - 1) eqn:Ei.
    + apply Nat.ltb_lt in Ei. rewrite Hnext by lia.
      apply IH; [lia | intros j Hj; apply Hready; lia
                | intros j Hj1 Hj2; apply Hnext; lia | exact Hnum1].
    + apply IH; [lia | intros j Hj; apply Hready; lia
                | intros j Hj1 Hj2; apply Hnext; lia | exact Hnum1].
Qed.

(** When the click after item [k + 1] fails, the loop stops right there,
    having numbered its records [1..k+1]. *)
Lemma run_loop_click_failure (fuel i k : nat) (st : State) :
  i + fuel = N -> i <= k -> S k < N ->
  (forall j, i <= j <= k -> pg_ready (pages j) = true) ->
  (forall j, i <= j < k -> pg_next_ok (pages j) = true) ->
  pg_next_ok (pages k) = false ->
  map question_num (ocr_results st) = seq 1 i ->
  fst (run_loop py_hash N pages fuel i st) = Finished
  /\ map question_num (ocr_results (snd (run_loop py_hash N pages fuel i st))) = seq 1 (S k)
  /\ exists pre r, trace (snd (run_loop py_hash N pages fuel i st)) = pre ++ [EvAppend r; EvClick k false]
                   /\ question_num r = S k.
Proof.
  revert i st; induction fuel as [|fuel IH]; intros i st Hfuel Hik Hk Hready Hnext Hfail Hnum.
  - lia.
  - cbn [run_loop]. rewrite Hready by lia. cbn [negb].
    destruct (extract_question_and_answers py_hash (pages i) (last_question_hash st)) as [x h'].
    assert (Hnum1 : map question_num (ocr_results st ++ [record_for i x]) = seq 1 (S i)).
    { rewrite map_app, Hnum, seq_S. cbn [map]. rewrite record_for_num. reflexivity. }
    assert (Ei : (i <? N - 1) = true) by (apply Nat.ltb_lt; lia).
    rewrite Ei.
    destruct (Nat.eq_dec i k) as [<-|Hne].
    + rewrite Hfail. simpl. split; [reflexivity|]. split; [exact Hnum1|].
      exists (trace st ++ [EvWaitLoad i true; EvExtract i x]), (record_for i x).
      split; [|apply record_for_num]. rewrite <- !app_assoc. reflexivity.
    + rewrite Hnext by lia.
      apply IH; [lia | lia | exact Hk | intros j Hj; apply Hready; lia
                | intros j Hj; apply Hnext; lia | exact Hfail | exact Hnum1].
Qed.

End RunProps.

(* ------------------------------------------------------------------ *)
(** ** [extract_question_and_answers] in closed form *)

Lemma falsy_or_short (n k : nat) : 0 < k -> (n =? 0) || (n <? k) = negb (k <=? n).
Proof.
  intros Hk. destruct (Nat.eqb_spec n 0), (Nat.ltb_spec n k), (Nat.leb_spec k n);
    simpl; try reflexivity; lia.
Qed.

Lemma extract_eq (py_hash : text -> Z) (pg : Page) (h : option Z) :
  extract_question_and_answers py_hash pg h =
  let q := sd_question (extractQuestionData pg) in
  let a := sd_answers (extractQuestionData pg) in
  let qh := py_hash (firstn 100 q) in
  if pg_script_ok pg && (20 <=? List.length q) && (2 <=? List.length a)
     && negb (hash_truthy h && hash_eqb qh h)
  then (Some (format_result q a), Some qh) else (None, h).
Proof.
  unfold extract_question_and_answers. cbv zeta.
  rewrite !falsy_or_short by lia.
  set (q := sd_question (extractQuestionData pg)).
  set (a := sd_answers (extractQuestionData pg)).
  set (c := hash_truthy h && hash_eqb (py_hash (firstn 100 q)) h).
  destruct (pg_script_ok pg), (20 <=? List.length q), (2 <=? List.length a), c; reflexivity.
Qed.

(** A call that follows an accepted one is rejected whenever the hash of
    the new stem's first 100 characters equals the previous one and is not
    0. *)
Lemma extract_rejects_same_hash (py_hash : text -> Z) (pg1 pg2 : Page) (h0 : option Z) :
  fst (extract_question_and_answers py_hash pg1 h0) <> None ->
  py_hash (firstn 100 (sd_question (extractQuestionData pg2)))
  = py_hash (firstn 100 (sd_question (extractQuestionData pg1))) ->
  py_hash (firstn 100 (sd_question (extractQuestionData pg1))) <> 0%Z ->
  fst (extract_question_and_answers py_hash pg2 (snd (extract_question_and_answers py_hash pg1 h0)))
  = None.
Proof.
  intros Hacc Hh Hnz.
  destruct (extract_question_and_answers py_hash pg1 h0) as [[s|] h1] eqn:E1;
    [|contradiction]. cbn [fst snd].
  apply extract_some in E1 as (_ & _ & _ & _ & -> & _).
  rewrite extract_eq. cbv zeta. rewrite Hh.
  unfold hash_truthy, hash_eqb. rewrite Z.eqb_refl.
  destruct (Z.eqb_spec (py_hash (firstn 100 (sd_question (extractQuestionData pg1)))) 0);
    [contradiction|].
  rewrite !andb_false_r. reflexivity.
Qed.

(** In particular the same page twice: the second call gives [None] when
    the hash is not 0. *)
Lemma extract_same_page_rejected (py_hash : text -> Z) (pg : Page) (h0 : option Z) :
  fst (extract_question_and_answers py_hash pg h0) <> None ->
  py_hash (firstn 100 (sd_question (extractQuestionData pg))) <> 0%Z ->
  fst (extract_question_and_answers py_hash pg (snd (extract_question_and_answers py_hash pg h0)))
  = None.
Proof. intros H1 H2. apply extract_rejects_same_hash; auto. Qed.

Lemma text_mem_true (x : text) (l : list text) : text_mem x l = true -> In x l.
Proof.
  unfold text_mem. intros H. apply existsb_exists in H as (y & Hy & E).
  apply text_eqb_eq in E. subst. exact Hy.
Qed.

Lemma trace_ok_split (pre post : list Ev) (i : nat) (r : option text) :
  trace_ok (pre ++ EvExtract i r :: post) ->
  exists post', post = EvAppend (record_for i r) :: post'.
Proof.
  induction pre as [|e pre IH]; intros H.
  - simpl in H. destruct H as [Hhd _]. destruct post as [|[] post]; try contradiction.
    subst. eauto.
  - apply IH. destruct e; simpl in H; try contradiction; try exact H.
    destruct H as [_ H]. exact H.
Qed.

Lemma trace_ok_no_capture (tr : list Ev) (j : nat) :
  trace_ok tr -> ~ In (EvScreenshot j) tr /\ ~ In (EvRecognize j) tr.
Proof.
  induction tr as [|e tr IH]; intros H; [simpl; tauto|].
  assert (Htl : trace_ok tr) by (destruct e; simpl in H; tauto).
  destruct (IH Htl) as [IH1 IH2].
  destruct e; simpl in H |- *; try contradiction;
    split; intros [E|E]; try discriminate; tauto.
Qed.

(** The modelled normaliser reproduces the example of section 8: the
    glyph is stripped, the whitespace collapsed and [|] before a lower-case
    letter read as [I]. *)
Lemma clean_spec_example :
  TextNormalizer.clean TextNormalizer.sample_config (169%Z :: t "The  cat  sat.|n the hat")
  = t "The cat sat.In the hat".
Proof. vm_compute. reflexivity. Qed.

(* ================================================================== *)
(** * Claims *)

(** C1. Ordinality: whatever the extraction outcomes, when every page
    loads and every "next" click succeeds, a run of [N] items ends normally
    with exactly [N] records numbered [1..N] in order; a failed extraction
    still occupies its slot with the placeholder. *)
Theorem run_ordinality (py_hash : text -> Z) (N : nat) (pages : nat -> Page) :
  (forall j, j < N -> pg_ready (pages j) = true) ->
  (forall j, S j < N -> pg_next_ok (pages j) = true) ->
  fst (run_automation py_hash N pages init_state) = Finished
  /\ List.length (ocr_results (snd (run_automation py_hash N pages init_state))) = N
  /\ map question_num (ocr_results (snd (run_automation py_hash N pages init_state)))
     = seq 1 N.
Proof.
  intros Hready Hnext.
  destruct (run_loop_all_ok py_hash N pages N 0 init_state) as [H1 H2];
    [reflexivity | intros j Hj; apply Hready; lia | intros j _ Hj; apply Hnext; lia
    | reflexivity |].
  unfold run_automation. split; [exact H1|]. split; [|exact H2].
  rewrite <- (length_map question_num), H2. apply length_seq.
Qed.

Lemma run_ordinality_witness :
  (forall j, j < 3 -> pg_ready (if Nat.even j then sample_page else blank_page) = true)
  /\ (forall j, S j < 3 -> pg_next_ok (if Nat.even j then sample_page else blank_page) = true)
  /\ fst (run_automation (fun _ => 7%Z) 3
            (fun j => if Nat.even j then sample_page else blank_page) init_state) = Finished
  /\ List.length (ocr_results (snd (run_automation (fun _ => 7%Z) 3
            (fun j => if Nat.even j then sample_page else blank_page) init_state))) = 3
  /\ map question_num (ocr_results (snd (run_automation (fun _ => 7%Z) 3
            (fun j => if Nat.even j then sample_page else blank_page) init_state))) = seq 1 3.
Proof.
  assert (Hr : forall j, j < 3 -> pg_ready (if Nat.even j then sample_page else blank_page) = true)
    by (intros j _; destruct (Nat.even j); reflexivity).
  assert (Hn : forall j, S j < 3 -> pg_next_ok (if Nat.even j then sample_page else blank_page) = true)
    by (intros j _; destruct (Nat.even j); reflexivity).
  split; [exact Hr|]. split; [exact Hn|].
  exact (run_ordinality (fun _ => 7%Z) 3 (fun j => if Nat.even j then sample_page else blank_page) Hr Hn).
Defined.

(** The recognition fallback of C2 as the claim states it: every item
    whose extraction gave nothing is preceded, before its record is
    appended, by a screenshot and a recognition call. *)
Definition falls_back_before_failure (py_hash : text -> Z) (N : nat) (pages : nat -> Page) : Prop :=
  forall pre i post,
    trace (snd (run_automation py_hash N pages init_state)) = pre ++ EvExtract i None :: post ->
    exists mid post', post = mid ++ EvAppend (record_for i None) :: post'
                      /\ In (EvScreenshot i) mid /\ In (EvRecognize i) mid.

(** C2 (counterexample). A one-item run on a blank page: the failed
    extraction is recorded as the placeholder at once, with no screenshot
    and no recognition call. *)
Lemma fallback_counterexample : ~ falls_back_before_failure (fun _ => 0%Z) 1 (fun _ => blank_page).
Proof.
  intros H.
  destruct (H [EvWaitLoad 0 true] 0 [EvAppend (record_for 0 None)] eq_refl)
    as (mid & post' & E & Hs & _).
  destruct mid as [|e mid]; [contradiction|].
  injection E as -> E. destruct mid; discriminate E.
Qed.

(** C2 (amended). When [extract_question_and_answers] returns [None] for an
    item, [run_automation] appends the placeholder record for that item
    right away; no screenshot, preprocessing or recognition is ever
    invoked. *)
Theorem run_failure_records_placeholder (py_hash : text -> Z) (N : nat) (pages : nat -> Page) :
  (forall j, ~ In (EvScreenshot j) (trace (snd (run_automation py_hash N pages init_state)))
             /\ ~ In (EvRecognize j) (trace (snd (run_automation py_hash N pages init_state))))
  /\ (forall pre i post,
        trace (snd (run_automation py_hash N pages init_state)) = pre ++ EvExtract i None :: post ->
        exists post', post = EvAppend {| question_num := S i; rtext := placeholder (S i) |} :: post').
Proof.
  destruct (run_trace_ok py_hash N pages) as [Hok _]. split.
  - intros j. apply trace_ok_no_capture. exact Hok.
  - intros pre i post E. rewrite E in Hok. exact (trace_ok_split _ _ _ _ Hok).
Qed.

Lemma run_failure_records_placeholder_witness :
  trace (snd (run_automation (fun _ => 0%Z) 1 (fun _ => blank_page) init_state))
    = [EvWaitLoad 0 true] ++ EvExtract 0 None :: [EvAppend (record_for 0 None)]
  /\ exists post', [EvAppend (record_for 0 None)]
                   = EvAppend {| question_num := 1; rtext := placeholder 1 |} :: post'.
Proof.
  split; [reflexivity|].
  exact (proj2 (run_failure_records_placeholder (fun _ => 0%Z) 1 (fun _ => blank_page))
           [EvWaitLoad 0 true] 0 [EvAppend (record_for 0 None)] eq_refl).
Defined.

(** C3 (the code's behaviour at its failing input). [last_question_hash] is
    tested by Python truthiness, so when the hash of the stem's first 100
    characters is 0 the duplicate check is skipped: a second call on the
    same page re-emits the same formatted item instead of [None]. *)
Theorem dedup_skipped_on_zero_hash (py_hash : text -> Z) (pg : Page) :
  fst (extract_question_and_answers py_hash pg None) <> None ->
  py_hash (firstn 100 (sd_question (extractQuestionData pg))) = 0%Z ->
  extract_question_and_answers py_hash pg (snd (extract_question_and_answers py_hash pg None))
  = extract_question_and_answers py_hash pg None.
Proof.
  intros Hacc Hz.
  destruct (extract_question_and_answers py_hash pg None) as [[s|] h1] eqn:E1;
    [|contradiction]. cbn [fst snd].
  pose proof E1 as E2. apply extract_some in E2 as (Hok & Hq & Ha & _ & -> & _).
  apply Nat.leb_le in Hq, Ha.
  rewrite <- E1, !extract_eq. cbv zeta. rewrite Hz, Hok, Hq, Ha. reflexivity.
Qed.

Lemma dedup_skipped_on_zero_hash_witness :
  fst (extract_question_and_answers (fun _ => 0%Z) sample_page None) <> None
  /\ extract_question_and_answers (fun _ => 0%Z) sample_page
       (snd (extract_question_and_answers (fun _ => 0%Z) sample_page None))
     = extract_question_and_answers (fun _ => 0%Z) sample_page None.
Proof.
  assert (Hacc : fst (extract_question_and_answers (fun _ => 0%Z) sample_page None) <> None)
    by (vm_compute; discriminate).
  split; [exact Hacc|].
  exact (dedup_skipped_on_zero_hash (fun _ => 0%Z) sample_page Hacc eq_refl).
Defined.

(** C4. Validation gate: a non-[None] result always comes from a stem of at
    least 20 characters and at least 2 distinct answer options. *)
Theorem extract_validation_gate (py_hash : text -> Z) (pg : Page) (h : option Z) :
  fst (extract_question_and_answers py_hash pg h) <> None ->
  20 <= List.length (sd_question (extractQuestionData pg))
  /\ 2 <= List.length (sd_answers (extractQuestionData pg))
  /\ NoDup (sd_answers (extractQuestionData pg)).
Proof.
  intros H.
  destruct (extract_question_and_answers py_hash pg h) as [[s|] h'] eqn:E; [|contradiction].
  apply extract_some in E as (_ & Hq & Ha & _).
  split; [exact Hq|]. split; [exact Ha|]. apply script_answers_inv.
Qed.

Lemma extract_validation_gate_witness :
  fst (extract_question_and_answers (fun _ => 7%Z) sample_page None) <> None
  /\ 20 <= List.length (sd_question (extractQuestionData sample_page))
  /\ 2 <= List.length (sd_answers (extractQuestionData sample_page))
  /\ NoDup (sd_answers (extractQuestionData sample_page)).
Proof.
  assert (Hacc : fst (extract_question_and_answers (fun _ => 7%Z) sample_page None) <> None)
    by (vm_compute; discriminate).
  split; [exact Hacc|]. exact (extract_validation_gate (fun _ => 7%Z) sample_page None Hacc).
Defined.

(** C5. Formatting: every accepted extraction is the stem, a blank line,
    then each of the first 5 options on its own line behind its 1-indexed
    letter, in extraction order; on the example of the specification the
    code's formatting gives the stated text. *)
Theorem extract_formatting :
  (forall (py_hash : text -> Z) (pg : Page) (h : option Z) (s : text) (h' : option Z),
     extract_question_and_answers py_hash pg h = (Some s, h') ->
     s = format_spec (sd_question (extractQuestionData pg)) (sd_answers (extractQuestionData pg)))
  /\ format_result (t "What is the capital of France?") [t "Paris"; t "London"; t "Berlin"]
     = t "What is the capital of France?" ++ [nl; nl]
       ++ t "A. Paris" ++ [nl] ++ t "B. London" ++ [nl] ++ t "C. Berlin" ++ [nl].
Proof.
  split.
  - intros py_hash pg h s h' E. apply extract_some in E as (_ & _ & _ & -> & _).
    apply format_result_spec.
  - reflexivity.
Qed.

Lemma extract_formatting_witness :
  exists s h', extract_question_and_answers (fun _ => 7%Z) sample_page None = (Some s, h')
               /\ s = format_spec (sd_question (extractQuestionData sample_page))
                                  (sd_answers (extractQuestionData sample_page)).
Proof.
  destruct (extract_question_and_answers (fun _ => 7%Z) sample_page None) as [[s|] h'] eqn:E.
  - exists s, h'. split; [reflexivity|].
    exact (proj1 extract_formatting (fun _ => 7%Z) sample_page None s h' E).
  - exfalso. vm_compute in E. discriminate E.
Defined.

(** C6. Navigation failure: when the click after item [k + 1] fails (and
    [k + 1 < N]), the run stops normally right after that single attempt,
    with the records [1..k+1] only, and [main] writes all of them. *)
Theorem run_navigation_failure (py_hash : text -> Z) (N k : nat) (pages : nat -> Page) :
  S k < N ->
  (forall j, j <= k -> pg_ready (pages j) = true) ->
  (forall j, j < k -> pg_next_ok (pages j) = true) ->
  pg_next_ok (pages k) = false ->
  fst (run_automation py_hash N pages init_state) = Finished
  /\ map question_num (ocr_results (snd (run_automation py_hash N pages init_state))) = seq 1 (S k)
  /\ (exists pre r, trace (snd (run_automation py_hash N pages init_state))
                    = pre ++ [EvAppend r; EvClick k false] /\ question_num r = S k)
  /\ main_output py_hash N pages
     = Some (save_results (ocr_results (snd (run_automation py_hash N pages init_state)))).
Proof.
  intros Hk Hready Hnext Hfail.
  destruct (run_loop_click_failure py_hash N pages N 0 k init_state)
    as (H1 & H2 & H3); try reflexivity; try lia;
    [intros j Hj; apply Hready; lia | intros j Hj; apply Hnext; lia | exact Hfail |].
  unfold run_automation. split; [exact H1|]. split; [exact H2|]. split; [exact H3|].
  unfold main_output, run_automation.
  destruct (run_loop py_hash N pages N 0 init_state) as [o st]. simpl in H1. subst o.
  reflexivity.
Qed.

Lemma run_navigation_failure_witness :
  let pages := fun j => if j =? 1 then mkPage true true [] [] [] false else sample_page in
  S 1 < 4 /\ (forall j, j <= 1 -> pg_ready (pages j) = true)
  /\ (forall j, j < 1 -> pg_next_ok (pages j) = true) /\ pg_next_ok (pages 1) = false
  /\ fst (run_automation (fun _ => 7%Z) 4 pages init_state) = Finished
  /\ map question_num (ocr_results (snd (run_automation (fun _ => 7%Z) 4 pages init_state)))
     = seq 1 2.
Proof.
  intros pages.
  assert (Hr : forall j, j <= 1 -> pg_ready (pages j) = true)
    by (intros j _; unfold pages; destruct (j =? 1); reflexivity).
  assert (Hn : forall j, j < 1 -> pg_next_ok (pages j) = true)
    by (intros j Hj; assert (j = 0) as -> by lia; reflexivity).
  assert (Hf : pg_next_ok (pages 1) = false) by reflexivity.
  destruct (run_navigation_failure (fun _ => 7%Z) 4 1 pages ltac:(lia) Hr Hn Hf)
    as (H1 & H2 & _).
  repeat split; try assumption. lia.
Defined.

(** C8. Short options are dropped: every option the script returns is
    longer than 5 UTF-16 code units, so a 5-letter option such as "Paris"
    never appears in the extracted answer list. *)
Theorem script_drops_short_options (pg : Page) :
  Forall (fun a => 5 < js_length a) (sd_answers (extractQuestionData pg))
  /\ text_mem (t "Paris") (sd_answers (extractQuestionData pg)) = false.
Proof.
  destruct (script_answers_inv pg) as [_ Hall]. split; [exact Hall|].
  destruct (text_mem (t "Paris") (sd_answers (extractQuestionData pg))) eqn:E; [|reflexivity].
  apply text_mem_true in E. rewrite Forall_forall in Hall. apply Hall in E.
  simpl in E. lia.
Qed.

(** C9. Only a 100-character prefix is compared: after an accepted
    extraction, a page whose different stem agrees on the first 100
    characters is rejected as a duplicate ([None]), provided the hash of
    that prefix is not 0. *)
Theorem dedup_prefix_only (py_hash : text -> Z) (pg1 pg2 : Page) (h0 : option Z) :
  fst (extract_question_and_answers py_hash pg1 h0) <> None ->
  sd_question (extractQuestionData pg2) <> sd_question (extractQuestionData pg1) ->
  firstn 100 (sd_question (extractQuestionData pg2))
  = firstn 100 (sd_question (extractQuestionData pg1)) ->
  py_hash (firstn 100 (sd_question (extractQuestionData pg1))) <> 0%Z ->
  fst (extract_question_and_answers py_hash pg2 (snd (extract_question_and_answers py_hash pg1 h0)))
  = None.
Proof.
  intros Hacc _ Hpre Hnz. apply extract_rejects_same_hash; [exact Hacc| |exact Hnz].
  rewrite Hpre. reflexivity.
Qed.

(** Two pages that differ only after 100 characters of their stems: each
    is accepted on its own, but the second is rejected after the first. *)
Lemma dedup_prefix_only_witness :
  let hash := fun s : text => Z.of_nat (List.length s) in
  let pg1 := prefix_page "Which is right?" in
  let pg2 := prefix_page "Which is wrong?" in
  fst (extract_question_and_answers hash pg2 None) <> None
  /\ fst (extract_question_and_answers hash pg2
            (snd (extract_question_and_answers hash pg1 None))) = None.
Proof.
  intros hash pg1 pg2. split; [vm_compute; discriminate|].
  apply dedup_prefix_only.
  - vm_compute. discriminate.
  - vm_compute. discriminate.
  - vm_compute. reflexivity.
  - vm_compute. discriminate.
Defined.

(** C10. Extraction never raises to the loop: an exception of the in-page
    script gives [None] with the state unchanged, any other result is a
    formatted string, and in every run each extraction is immediately
    followed by the append of its record. *)
Theorem extraction_never_raises :
  (forall (py_hash : text -> Z) (pg : Page) (h : option Z),
     pg_script_ok pg = false -> extract_question_and_answers py_hash pg h = (None, h))
  /\ (forall (py_hash : text -> Z) (pg : Page) (h : option Z) (s : text) (h' : option Z),
        extract_question_and_answers py_hash pg h = (Some s, h') ->
        s = format_result (sd_question (extractQuestionData pg)) (sd_answers (extractQuestionData pg)))
  /\ (forall (py_hash : text -> Z) (N : nat) (pages : nat -> Page) pre i r post,
        trace (snd (run_automation py_hash N pages init_state)) = pre ++ EvExtract i r :: post ->
        exists post', post = EvAppend (record_for i r) :: post').
Proof.
  split; [|split].
  - apply extract_script_error.
  - intros py_hash pg h s h' E. apply extract_some in E. tauto.
  - intros py_hash N pages pre i r post E.
    destruct (run_trace_ok py_hash N pages) as [Hok _]. rewrite E in Hok.
    exact (trace_ok_split _ _ _ _ Hok).
Qed.

Lemma extraction_never_raises_witness :
  let pg := mkPage true false [] [] [] true in
  pg_script_ok pg = false
  /\ extract_question_and_answers (fun _ => 7%Z) pg (Some 3%Z) = (None, Some 3%Z).
Proof.
  intros pg. split; [reflexivity|].
  exact (proj1 extraction_never_raises (fun _ => 7%Z) pg (Some 3%Z) eq_refl).
Defined.

(* ------------------------------------------------------------------ *)
(** ** The modelled normaliser on lines without special characters *)

Section NormaliserLemmas.

Import TextNormalizer.

Lemma filter_decorative_id (cfg : Config) (l : text) :
  Forall (fun c => decorative cfg c = false) l ->
  filter (fun c => negb (decorative cfg c)) l = l.
Proof.
  induction 1 as [|c l Hc _ IH]; simpl; [reflexivity|]. rewrite Hc, IH. reflexivity.
Qed.

Lemma split_lines_acc_single (l cur : text) :
  Forall (fun c => (c =? 10)%Z = false) l -> split_lines_acc cur l = [rev cur ++ l].
Proof.
  intros H. revert cur; induction H as [|c l Hc _ IH]; intros cur; simpl.
  - rewrite app_nil_r. reflexivity.
  - rewrite Hc, IH. simpl. rewrite <- app_assoc. reflexivity.
Qed.

Lemma collapse_ws_id (l : text) :
  Forall (fun c => is_js_space c = false) l -> collapse_ws false l = l.
Proof.
  induction 1 as [|c l Hc _ IH]; simpl; [reflexivity|]. rewrite Hc, IH. reflexivity.
Qed.

Lemma collapse_ws_trailing (l : text) :
  Forall (fun c => is_js_space c = false) l -> collapse_ws false (l ++ [32%Z]) = l ++ [32%Z].
Proof.
  induction 1 as [|c l Hc _ IH]; simpl; [reflexivity|]. rewrite Hc, IH. reflexivity.
Qed.

Lemma drop_ws_before_punct_id (l : text) :
  Forall (fun c => is_punct c = false) l -> drop_ws_before_punct l = l.
Proof.
  induction 1 as [|c l Hc Hl IH]; [reflexivity|].
  destruct l as [|d l]; [reflexivity|].
  inversion Hl as [|? ? Hd _]; subst.
  change (drop_ws_before_punct (c :: d :: l))
    with (if is_js_space c && is_punct d then drop_ws_before_punct (d :: l)
          else c :: drop_ws_before_punct (d :: l)).
  rewrite Hd, andb_false_r, IH. reflexivity.
Qed.

Lemma fix_bar_id (l : text) :
  Forall (fun c => (c =? 124)%Z = false) l -> fix_bar l = l.
Proof.
  induction 1 as [|c l Hc Hl IH]; [reflexivity|].
  destruct l as [|d l]; [reflexivity|].
  change (fix_bar (c :: d :: l))
    with (if (c =? 124)%Z && is_lower d then 73%Z :: fix_bar (d :: l) else c :: fix_bar (d :: l)).
  rewrite Hc, IH. reflexivity.
Qed.

Lemma word_tokens_none (l : text) :
  Forall (fun c => is_alpha c = false) l -> word_tokens 0 l = 0.
Proof.
  induction 1 as [|c l Hc _ IH]; simpl; [reflexivity|]. rewrite Hc, IH. reflexivity.
Qed.

(** The characters of the inputs below: the digit 1 and a space. *)
Definition one_or_space (c : Z) : Prop := c = 49%Z \/ c = 32%Z.

Lemma ones_chars (n : nat) : Forall one_or_space (repeat 49%Z n).
Proof. apply Forall_forall. intros c Hc. apply repeat_spec in Hc. left. exact Hc. Qed.

Lemma ones_space_chars (n : nat) : Forall one_or_space (repeat 49%Z n ++ [32%Z]).
Proof.
  apply Forall_app. split; [apply ones_chars|]. constructor; [right; reflexivity | constructor].
Qed.

Lemma one_or_space_facts (l : text) (P : Z -> Prop) :
  P 49%Z -> P 32%Z -> Forall one_or_space l -> Forall P l.
Proof. intros H1 H2. apply Forall_impl. intros c [-> | ->]; assumption. Qed.

Lemma ones_no_space (n : nat) : Forall (fun c => is_js_space c = false) (repeat 49%Z n).
Proof. apply Forall_forall. intros c Hc. apply repeat_spec in Hc. subst. reflexivity. Qed.

(** One pass over a line of digits, with and without a trailing space. *)
Lemma clean_line_ones_space (n : nat) :
  clean_line (repeat 49%Z (S n) ++ [32%Z]) = repeat 49%Z (S n) ++ [32%Z].
Proof.
  unfold clean_line.
  change (strip_nonword_prefix (repeat 49%Z (S n) ++ [32%Z])) with (repeat 49%Z (S n) ++ [32%Z]).
  rewrite collapse_ws_trailing by apply ones_no_space.
  rewrite drop_ws_before_punct_id
    by (apply (one_or_space_facts _ _ eq_refl eq_refl), ones_space_chars).
  apply fix_bar_id, (one_or_space_facts _ _ eq_refl eq_refl), ones_space_chars.
Qed.

Lemma clean_line_ones (n : nat) : clean_line (repeat 49%Z (S n)) = repeat 49%Z (S n).
Proof.
  unfold clean_line.
  change (strip_nonword_prefix (repeat 49%Z (S n))) with (repeat 49%Z (S n)).
  rewrite collapse_ws_id by apply ones_no_space.
  rewrite drop_ws_before_punct_id by (apply (one_or_space_facts _ _ eq_refl eq_refl), ones_chars).
  apply fix_bar_id, (one_or_space_facts _ _ eq_refl eq_refl), ones_chars.
Qed.

Lemma js_trim_ones_space (n : nat) : js_trim (repeat 49%Z (S n) ++ [32%Z]) = repeat 49%Z (S n).
Proof.
  unfold js_trim.
  change (drop_space (repeat 49%Z (S n) ++ [32%Z])) with (repeat 49%Z (S n) ++ [32%Z]).
  rewrite rev_app_distr, rev_repeat. simpl rev at 1. cbn [app].
  change (drop_space (32%Z :: repeat 49%Z (S n))) with (drop_space (repeat 49%Z (S n))).
  change (drop_space (repeat 49%Z (S n))) with (repeat 49%Z (S n)).
  exact (rev_repeat (S n) 49%Z).
Qed.

End NormaliserLemmas.

(** C7 (the modelled normaliser at its failing input). [clean] is not
    idempotent: for any glyph set that leaves the digit 1 and the space
    alone, any word-token minimum of at least 1 and any minimum length
    [L >= 2], the line of [L - 1] digits followed by a space is kept (it is
    [L] long) and trimmed to [L - 1] digits, which a second pass drops. *)
Theorem clean_not_idempotent (cfg : TextNormalizer.Config) :
  TextNormalizer.decorative cfg 49%Z = false ->
  TextNormalizer.decorative cfg 32%Z = false ->
  1 <= TextNormalizer.min_words cfg ->
  2 <= TextNormalizer.min_length cfg ->
  TextNormalizer.clean cfg (repeat 49%Z (TextNormalizer.min_length cfg - 1) ++ [32%Z])
    = repeat 49%Z (TextNormalizer.min_length cfg - 1)
  /\ TextNormalizer.clean cfg
       (TextNormalizer.clean cfg (repeat 49%Z (TextNormalizer.min_length cfg - 1) ++ [32%Z])) = []
  /\ TextNormalizer.clean cfg
       (TextNormalizer.clean cfg (repeat 49%Z (TextNormalizer.min_length cfg - 1) ++ [32%Z]))
     <> TextNormalizer.clean cfg (repeat 49%Z (TextNormalizer.min_length cfg - 1) ++ [32%Z]).
Proof.
  intros Hd1 Hd2 Hw Hl.
  destruct (TextNormalizer.min_length cfg) as [|[|m]] eqn:EL; [lia|lia|].
  replace (S (S m) - 1) with (S m) by lia.
  assert (Hfirst : TextNormalizer.clean cfg (repeat 49%Z (S m) ++ [32%Z]) = repeat 49%Z (S m)).
  { unfold TextNormalizer.clean.
    rewrite filter_decorative_id
      by (apply (one_or_space_facts _ _ Hd1 Hd2), ones_space_chars).
    unfold TextNormalizer.split_lines.
    rewrite split_lines_acc_single
      by (apply (one_or_space_facts _ _ eq_refl eq_refl), ones_space_chars).
    cbn [rev app map]. rewrite clean_line_ones_space.
    cbn [filter]. unfold TextNormalizer.keep_line. rewrite EL, length_app, repeat_length.
    cbn [List.length]. rewrite Nat.add_1_r, Nat.ltb_irrefl, andb_false_r.
    cbn [negb map TextNormalizer.join_lines]. apply js_trim_ones_space. }
  assert (Hsecond : TextNormalizer.clean cfg (repeat 49%Z (S m)) = []).
  { unfold TextNormalizer.clean.
    rewrite filter_decorative_id by (apply (one_or_space_facts _ _ Hd1 Hd2), ones_chars).
    unfold TextNormalizer.split_lines.
    rewrite split_lines_acc_single by (apply (one_or_space_facts _ _ eq_refl eq_refl), ones_chars).
    cbn [rev app map]. rewrite clean_line_ones.
    cbn [filter]. unfold TextNormalizer.keep_line.
    rewrite word_tokens_none by (apply (one_or_space_facts _ _ eq_refl eq_refl), ones_chars).
    rewrite EL, repeat_length.
    assert (E1 : (0 <? TextNormalizer.min_words cfg) = true) by (apply Nat.ltb_lt; lia).
    assert (E2 : (S m <? S (S m)) = true) by (apply Nat.ltb_lt; lia).
    rewrite E1, E2. reflexivity. }
  rewrite Hfirst, Hsecond. split; [reflexivity|]. split; [reflexivity|]. discriminate.
Qed.

Lemma clean_not_idempotent_witness :
  TextNormalizer.clean TextNormalizer.sample_config (t "111111111 ") = t "111111111"
  /\ TextNormalizer.clean TextNormalizer.sample_config
       (TextNormalizer.clean TextNormalizer.sample_config (t "111111111 ")) = [].
Proof.
  destruct (clean_not_idempotent TextNormalizer.sample_config eq_refl eq_refl
              ltac:(simpl; lia) ltac:(simpl; lia)) as (H1 & H2 & _).
  split; [exact H1 | exact H2].
Defined.

(* ================================================================== *)
(** * Further properties of the code *)

(* ------------------------------------------------------------------ *)
(** ** Where the answers come from *)

Lemma collect_answers_origin (items acc : list text) (a : text) :
  In a (collect_answers acc items) -> In a acc \/ exists it, In it items /\ a = clean_answer it.
Proof.
  revert acc; induction items as [|it items IH]; intros acc H; simpl in H; [auto|].
  destruct ((5 <? js_length (clean_answer it)) && negb (text_mem (clean_answer it) acc));
    apply IH in H as [H|(it' & Hin & ->)].
  - apply in_app_or in H as [H|[<-|[]]]; [left; exact H|].
    right. exists it. split; [left|]; reflexivity.
  - right. exists it'. split; [right; exact Hin|reflexivity].
  - left. exact H.
  - right. exists it'. split; [right; exact Hin|reflexivity].
Qed.

Lemma strategy1_origin (els : list Elem) (x : text) :
  In x (strategy1 els) ->
  exists e, In e els /\ qgt (el_width e) (100 # 1) = true /\ qgt (el_height e) (20 # 1) = true
            /\ x = js_trim (elem_text e).
Proof.
  unfold strategy1. intros H. apply in_flat_map in H as (e & He & Hx).
  destruct (has_answer_pattern (js_trim (elem_text e)) && _ && _); [|contradiction].
  destruct (qgt (el_width e) (100 # 1)) eqn:Ew, (qgt (el_height e) (20 # 1)) eqn:Eh;
    simpl in Hx; try contradiction.
  destruct Hx as [<-|[]]. exists e. auto.
Qed.

Lemma strategy2_origin (els : list Elem) (x : text) :
  In x (strategy2 els) ->
  exists e, In e els /\ qgt (el_width e) (100 # 1) = true /\ qgt (el_height e) (20 # 1) = true
            /\ x = js_trim (elem_text e).
Proof.
  unfold strategy2. intros H. apply in_flat_map in H as (e & He & Hx).
  destruct (el_children e) as [|c [|c' cs]]; try contradiction.
  destruct (is_single_AE (js_trim (elem_text c)) && _ && _); [|contradiction].
  destruct (qgt (el_width e) (100 # 1)) eqn:Ew, (qgt (el_height e) (20 # 1)) eqn:Eh;
    simpl in Hx; try contradiction.
  destruct Hx as [<-|[]]. exists e. auto.
Qed.

Lemma In_firstn_gen {A : Type} (n : nat) (l : list A) (x : A) : In x (firstn n l) -> In x l.
Proof. intros H. rewrite <- (firstn_skipn n l). apply in_or_app. left. exact H. Qed.


(** X2. Every answer the script reports is the cleaned, trimmed text of an
    element of one of its two queries whose bounding box is wider than 100
    and taller than 20 pixels. *)
Theorem script_answers_from_visible_elements (pg : Page) (a : text) :
  In a (sd_answers (extractQuestionData pg)) ->
  exists e, (In e (pg_answer_query pg) \/ In e (pg_container_query pg))
            /\ qgt (el_width e) (100 # 1) = true /\ qgt (el_height e) (20 # 1) = true
            /\ a = clean_answer (js_trim (elem_text e)).
Proof.
  unfold extractQuestionData. cbn [sd_answers]. intros H.
  apply In_firstn_gen, collect_answers_origin in H as [[]|(it & Hit & ->)].
  destruct (strategy1 (pg_answer_query pg)) as [|x xs] eqn:E1.
  - apply strategy2_origin in Hit as (e & He & Hw & Hh & ->). exists e. auto.
  - rewrite <- E1 in Hit. apply strategy1_origin in Hit as (e & He & Hw & Hh & ->).
    exists e. auto.
Qed.

Lemma script_answers_from_visible_elements_witness :
  In (t "London, England") (sd_answers (extractQuestionData sample_page))
  /\ exists e, (In e (pg_answer_query sample_page) \/ In e (pg_container_query sample_page))
               /\ qgt (el_width e) (100 # 1) = true /\ qgt (el_height e) (20 # 1) = true
               /\ t "London, England" = clean_answer (js_trim (elem_text e)).
Proof.
  assert (H : In (t "London, England") (sd_answers (extractQuestionData sample_page)))
    by (vm_compute; left; reflexivity).
  split; [exact H|]. exact (script_answers_from_visible_elements sample_page _ H).
Defined.



(* ------------------------------------------------------------------ *)
(** ** Trimming *)

Lemma drop_space_suffix (s : text) : exists p, s = p ++ drop_space s.
Proof.
  induction s as [|c r IH]; simpl; [exists []; reflexivity|].
  destruct (is_js_space c).
  - destruct IH as [p Hp]. exists (c :: p). simpl. rewrite <- Hp. reflexivity.
  - exists []. reflexivity.
Qed.

Lemma drop_space_head (s : text) :
  drop_space s = [] \/ exists c r, drop_space s = c :: r /\ is_js_space c = false.
Proof.
  induction s as [|c r IH]; simpl; [left; reflexivity|].
  destruct (is_js_space c) eqn:E; [exact IH|]. right. exists c, r. auto.
Qed.

Lemma drop_space_nonspace (c : Z) (r : text) :
  is_js_space c = false -> drop_space (c :: r) = c :: r.
Proof. intros H. simpl. rewrite H. reflexivity. Qed.

Lemma drop_space_idem (s : text) : drop_space (drop_space s) = drop_space s.
Proof.
  destruct (drop_space_head s) as [->|(c & r & -> & Hc)]; [reflexivity|].
  apply drop_space_nonspace, Hc.
Qed.

Lemma js_trim_idem (s : text) : js_trim (js_trim s) = js_trim s.
Proof.
  destruct (drop_space_head s) as [Hn|(c & r & Hcr & Hc)].
  - unfold js_trim. rewrite Hn. reflexivity.
  - unfold js_trim at 2 3. rewrite Hcr.
    destruct (drop_space (rev (c :: r))) as [|x w] eqn:Ev; [reflexivity|].
    destruct (drop_space_suffix (rev (c :: r))) as [p Hp]. rewrite Ev in Hp.
    assert (Hu : c :: r = rev (x :: w) ++ rev p)
      by (rewrite <- (rev_involutive (c :: r)), Hp, rev_app_distr; reflexivity).
    destruct (rev (x :: w)) as [|y ys] eqn:Er.
    + apply (f_equal (@List.length Z)) in Er. rewrite length_rev in Er. discriminate.
    + injection Hu as <- _. unfold js_trim. rewrite (drop_space_nonspace _ _ Hc), <- Er.
      rewrite rev_involutive, <- Ev, drop_space_idem. reflexivity.
Qed.

Lemma clean_answer_trimmed (s : text) : js_trim (clean_answer s) = clean_answer s.
Proof. unfold clean_answer. apply js_trim_idem. Qed.

Lemma collect_answers_trimmed (acc items : list text) :
  Forall (fun a => js_trim a = a) acc ->
  Forall (fun a => js_trim a = a) (collect_answers acc items).
Proof.
  revert acc; induction items as [|it items IH]; intros acc H; simpl; [exact H|].
  destruct (_ && _); apply IH; [|exact H].
  apply Forall_app. split; [exact H|]. constructor; [apply clean_answer_trimmed|constructor].
Qed.

(* ------------------------------------------------------------------ *)
(** ** The sort of the question candidates *)

Lemma cand_insert_In (x y : Candidate) (l : list Candidate) :
  In y (cand_insert x l) <-> x = y \/ In y l.
Proof.
  induction l as [|h r IH]; simpl.
  - tauto.
  - destruct (cand_cmp x h <? 0)%Z; simpl; [tauto|]. rewrite IH. tauto.
Qed.

Lemma cand_sort_In_gen (l acc : list Candidate) (y : Candidate) :
  In y (fold_left (fun acc x => cand_insert x acc) l acc) -> In y acc \/ In y l.
Proof.
  revert acc; induction l as [|x l IH]; intros acc H; simpl in H; [auto|].
  apply IH in H as [H|H]; [|right; right; exact H].
  apply cand_insert_In in H as [->|H]; [right; left; reflexivity|left; exact H].
Qed.

Lemma cand_sort_In (l : list Candidate) (y : Candidate) : In y (cand_sort l) -> In y l.
Proof. intros H. apply cand_sort_In_gen in H as [[]|H]. exact H. Qed.

Lemma cand_cmp_refl (x : Candidate) : cand_cmp x x = 0%Z.
Proof. unfold cand_cmp. destruct (cand_hasQuestion x); simpl; lia. Qed.

Lemma cand_cmp_below (x y h : Candidate) :
  (cand_cmp y h >= 0)%Z -> (cand_cmp x h < 0)%Z -> (cand_cmp y x >= 0)%Z.
Proof.
  unfold cand_cmp.
  destruct (cand_hasQuestion x), (cand_hasQuestion y), (cand_hasQuestion h); simpl; lia.
Qed.

(** The first element of the sorted list compares at most as large as
    every element. *)
Lemma cand_insert_head (x d : Candidate) (l : list Candidate) :
  (forall y, In y l -> (cand_cmp y (hd d l) >= 0)%Z) ->
  forall y, In y (cand_insert x l) -> (cand_cmp y (hd d (cand_insert x l)) >= 0)%Z.
Proof.
  destruct l as [|h r]; intros Hl y Hy; simpl in *.
  - destruct Hy as [<-|[]]. rewrite cand_cmp_refl. lia.
  - destruct (cand_cmp x h <? 0)%Z eqn:E; simpl in *.
    + apply Z.ltb_lt in E. destruct Hy as [<-|Hy]; [rewrite cand_cmp_refl; lia|].
      apply (cand_cmp_below x y h); [apply Hl; exact Hy|exact E].
    + apply Z.ltb_ge in E. destruct Hy as [<-|Hy]; [rewrite cand_cmp_refl; lia|].
      apply cand_insert_In in Hy as [->|Hy]; [lia|apply Hl; right; exact Hy].
Qed.

Lemma cand_sort_head_gen (d : Candidate) (l acc : list Candidate) :
  (forall y, In y acc -> (cand_cmp y (hd d acc) >= 0)%Z) ->
  forall y, In y (fold_left (fun acc x => cand_insert x acc) l acc) ->
    (cand_cmp y (hd d (fold_left (fun acc x => cand_insert x acc) l acc)) >= 0)%Z.
Proof.
  revert acc; induction l as [|x l IH]; intros acc H; simpl; [exact H|].
  apply IH. apply cand_insert_head. exact H.
Qed.

Lemma cand_sort_In_gen_rev (l acc : list Candidate) (y : Candidate) :
  In y acc \/ In y l -> In y (fold_left (fun acc x => cand_insert x acc) l acc).
Proof.
  revert acc; induction l as [|x l IH]; intros acc H; simpl.
  - destruct H as [H|[]]. exact H.
  - apply IH. destruct H as [H|[<-|H]].
    + left. apply cand_insert_In. right. exact H.
    + left. apply cand_insert_In. left. reflexivity.
    + right. exact H.
Qed.

Lemma cand_sort_head (l : list Candidate) (h : Candidate) (rest : list Candidate) :
  cand_sort l = h :: rest -> forall y, In y l -> (cand_cmp y h >= 0)%Z.
Proof.
  intros Hs y Hy.
  assert (Hin : In y (cand_sort l)) by (apply cand_sort_In_gen_rev; right; exact Hy).
  pose proof (cand_sort_head_gen h l [] ltac:(intros ? [])) as Hh.
  fold (cand_sort l) in Hh. rewrite Hs in Hh, Hin. exact (Hh y Hin).
Qed.

Lemma question_candidates_origin (tq : list Elem) (c : Candidate) :
  In c (question_candidates tq) ->
  exists e, In e tq /\ qgt (el_width e) (200 # 1) = true
    /\ has_question_markers (cand_text c) = true
    /\ 30 < js_length (cand_text c) < 1000
    /\ is_not_ui_element (cand_text c) = true
    /\ cand_text c = js_trim (elem_text e)
    /\ cand_length c = js_length (cand_text c)
    /\ cand_hasQuestion c = existsb (Z.eqb 63) (cand_text c).
Proof.
  unfold question_candidates. intros H. apply in_flat_map in H as (e & He & Hc).
  destruct (has_question_markers (js_trim (elem_text e))) eqn:E1,
           (30 <? js_length (js_trim (elem_text e))) eqn:E2,
           (js_length (js_trim (elem_text e)) <? 1000) eqn:E3,
           (is_not_ui_element (js_trim (elem_text e))) eqn:E4; simpl in Hc; try contradiction.
  destruct (qgt (el_width e) (200 # 1)) eqn:E5; [|contradiction].
  destruct Hc as [<-|[]]. cbn [cand_text cand_length cand_hasQuestion].
  apply Nat.ltb_lt in E2, E3. exists e. repeat split; auto.
Qed.

(** X4. The script's question and each of its answers are already trimmed:
    [String.prototype.trim] leaves them unchanged. *)
Theorem script_texts_trimmed (pg : Page) :
  js_trim (sd_question (extractQuestionData pg)) = sd_question (extractQuestionData pg)
  /\ Forall (fun a => js_trim a = a) (sd_answers (extractQuestionData pg)).
Proof.
  unfold extractQuestionData. cbn [sd_question sd_answers]. split.
  - unfold pick_question. destruct (cand_sort _) as [|c rest] eqn:E; [reflexivity|].
    assert (Hc : In c (question_candidates (pg_text_query pg)))
      by (apply cand_sort_In; rewrite E; left; reflexivity).
    apply question_candidates_origin in Hc as (e & _ & _ & _ & _ & _ & -> & _).
    apply js_trim_idem.
  - apply Forall_firstn_gen, collect_answers_trimmed. constructor.
Qed.

(** X5. The question is empty exactly when no element of the text query
    passes the filters; otherwise it is the trimmed text of an element
    wider than 200 pixels that contains a question mark or a question word,
    is longer than 30 and shorter than 1000 UTF-16 units, and does not start
    with a UI label. *)
Theorem question_passes_filters (pg : Page) :
  let q := sd_question (extractQuestionData pg) in
  (question_candidates (pg_text_query pg) = [] /\ q = [])
  \/ (question_candidates (pg_text_query pg) <> []
      /\ exists e, In e (pg_text_query pg) /\ qgt (el_width e) (200 # 1) = true
         /\ has_question_markers q = true /\ 30 < js_length q < 1000
         /\ is_not_ui_element q = true /\ q = js_trim (elem_text e)).
Proof.
  cbn zeta. unfold extractQuestionData. cbn [sd_question]. unfold pick_question.
  destruct (question_candidates (pg_text_query pg)) as [|c0 cs] eqn:Eq.
  - left. split; reflexivity.
  - right. split; [discriminate|]. rewrite <- Eq.
    destruct (cand_sort (question_candidates (pg_text_query pg))) as [|c rest] eqn:E.
    + assert (Hin : In c0 (cand_sort (question_candidates (pg_text_query pg))))
        by (apply cand_sort_In_gen_rev; right; rewrite Eq; left; reflexivity).
      rewrite E in Hin. contradiction.
    + assert (Hc : In c (question_candidates (pg_text_query pg)))
        by (apply cand_sort_In; rewrite E; left; reflexivity).
      apply question_candidates_origin in Hc as (e & He & Hw & Hm & Hl & Hu & Ht & _).
      exists e. tauto.
Qed.

(** X6. The chosen question is the best candidate: if any candidate
    contains '?', so does the question; and among candidates that agree
    with it on containing '?', none has a length closer to 150. *)
Theorem question_preferred (pg : Page) (c : Candidate) :
  In c (question_candidates (pg_text_query pg)) ->
  let q := sd_question (extractQuestionData pg) in
  (cand_hasQuestion c = true -> existsb (Z.eqb 63) q = true)
  /\ (cand_hasQuestion c = existsb (Z.eqb 63) q ->
      (Z.abs (Z.of_nat (js_length q) - 150) <= Z.abs (Z.of_nat (cand_length c) - 150))%Z).
Proof.
  intros Hc. cbn zeta. unfold extractQuestionData. cbn [sd_question]. unfold pick_question.
  destruct (cand_sort (question_candidates (pg_text_query pg))) as [|h rest] eqn:E.
  - assert (Hin : In c (cand_sort (question_candidates (pg_text_query pg))))
      by (apply cand_sort_In_gen_rev; right; exact Hc).
    rewrite E in Hin. contradiction.
  - pose proof (cand_sort_head _ _ _ E c Hc) as Hcmp.
    assert (Hh : In h (question_candidates (pg_text_query pg)))
      by (apply cand_sort_In; rewrite E; left; reflexivity).
    apply question_candidates_origin in Hh as (_ & _ & _ & _ & _ & _ & _ & Hlen & Hq).
    rewrite <- Hlen, <- Hq. unfold cand_cmp in Hcmp.
    destruct (cand_hasQuestion c), (cand_hasQuestion h); simpl in Hcmp; split; intros H;
      try discriminate; try reflexivity; lia.
Qed.

Lemma question_preferred_witness :
  In (mkCandidate (t "Which of the following cities lies on the river Seine in France") 63 false)
     (question_candidates (pg_text_query two_stem_page))
  /\ (false = true -> existsb (Z.eqb 63) (sd_question (extractQuestionData two_stem_page)) = true)
  /\ (false = existsb (Z.eqb 63) (sd_question (extractQuestionData two_stem_page)) ->
      (Z.abs (Z.of_nat (js_length (sd_question (extractQuestionData two_stem_page))) - 150)
       <= Z.abs (Z.of_nat 63 - 150))%Z).
Proof.
  assert (H : In (mkCandidate (t "Which of the following cities lies on the river Seine in France") 63 false)
                 (question_candidates (pg_text_query two_stem_page)))
    by (vm_compute; left; reflexivity).
  split; [exact H|]. exact (question_preferred two_stem_page _ H).
Defined.

(* ------------------------------------------------------------------ *)
(** ** The state kept across calls *)


Lemma format_answers_prefix (answers : list text) (idx : nat) (acc : text) :
  exists rest, format_answers idx answers acc = acc ++ rest.
Proof.
  revert idx acc; induction answers as [|a answers IH]; intros idx acc; cbn [format_answers].
  - exists []. rewrite app_nil_r. reflexivity.
  - destruct (IH (S idx) (acc ++ [nth idx letters 0%Z] ++ t ". " ++ a ++ [nl])) as [rest Hr].
    rewrite Hr. eexists. rewrite <- app_assoc. reflexivity.
Qed.

(** X8. A successful extraction always yields a non-empty text, so the
    record appended for it holds that text and never the placeholder. *)
Theorem extract_success_recorded (py_hash : text -> Z) (pg : Page) (h : option Z) (i : nat) (s : text) :
  fst (extract_question_and_answers py_hash pg h) = Some s ->
  record_for i (fst (extract_question_and_answers py_hash pg h))
  = {| question_num := S i; rtext := s |}.
Proof.
  intros Hs. rewrite Hs. destruct (extract_question_and_answers py_hash pg h) as [x h'] eqn:E.
  cbn [fst] in Hs. subst x.
  destruct (extract_some py_hash pg h s h' E) as (_ & Hq & _ & Hfmt & _).
  unfold record_for. replace (str_truthy s) with true; [reflexivity|].
  unfold format_result in Hfmt.
  destruct (format_answers_prefix (firstn 5 (sd_answers (extractQuestionData pg))) 0
              (sd_question (extractQuestionData pg) ++ [nl; nl])) as [rest Hr].
  rewrite Hr in Hfmt. subst s. unfold str_truthy.
  rewrite !length_app. cbn [List.length]. destruct (_ + _ + _) eqn:E0; [lia|reflexivity].
Qed.

Lemma extract_success_recorded_witness :
  fst (extract_question_and_answers (fun _ => 1%Z) sample_page None)
  = Some (format_result (sd_question (extractQuestionData sample_page))
                        (sd_answers (extractQuestionData sample_page)))
  /\ record_for 0 (fst (extract_question_and_answers (fun _ => 1%Z) sample_page None))
     = {| question_num := 1;
          rtext := format_result (sd_question (extractQuestionData sample_page))
                                 (sd_answers (extractQuestionData sample_page)) |}.
Proof.
  assert (H : fst (extract_question_and_answers (fun _ => 1%Z) sample_page None)
              = Some (format_result (sd_question (extractQuestionData sample_page))
                                    (sd_answers (extractQuestionData sample_page))))
    by (vm_compute; reflexivity).
  split; [exact H|]. exact (extract_success_recorded _ _ _ 0 _ H).
Defined.

Section RunMore.

Variable py_hash : text -> Z.
Variable N : nat.
Variable pages : nat -> Page.

Lemma run_loop_nums (fuel i : nat) (st : State) :
  map question_num (ocr_results st) = seq 1 i ->
  exists k, i <= k <= i + fuel
    /\ map question_num (ocr_results (snd (run_loop py_hash N pages fuel i st))) = seq 1 k.
Proof.
  revert i st; induction fuel as [|fuel IH]; intros i st Hnum.
  - exists i. split; [lia|exact Hnum].
  - cbn [run_loop]. destruct (pg_ready (pages i)); cbn [negb].
    2:{ exists i. split; [lia|exact Hnum]. }
    destruct (extract_question_and_answers py_hash (pages i) (last_question_hash st)) as [x h'].
    assert (Hnum1 : map question_num (ocr_results st ++ [record_for i x]) = seq 1 (S i)).
    { rewrite map_app, Hnum, seq_S. cbn [map]. rewrite record_for_num. reflexivity. }
    cbn beta iota zeta.
    destruct (i <? N - 1); [destruct (pg_next_ok (pages i))|].
    + match goal with
      | |- context [run_loop _ _ _ fuel (S i) ?s] => destruct (IH (S i) s Hnum1) as (k & Hk & Hk')
      end.
      exists k. split; [lia|exact Hk'].
    + exists (S i). split; [lia|exact Hnum1].
    + match goal with
      | |- context [run_loop _ _ _ fuel (S i) ?s] => destruct (IH (S i) s Hnum1) as (k & Hk & Hk')
      end.
      exists k. split; [lia|exact Hk'].
Qed.

Lemma run_loop_timeout (fuel i k : nat) (st : State) :
  i + fuel = N -> i <= k < N ->
  (forall j, i <= j < k -> pg_ready (pages j) = true /\ pg_next_ok (pages j) = true) ->
  pg_ready (pages k) = false ->
  fst (run_loop py_hash N pages fuel i st) = Raised.
Proof.
  revert i st; induction fuel as [|fuel IH]; intros i st Hfuel Hik Hok Hk.
  - lia.
  - cbn [run_loop]. destruct (Nat.eq_dec i k) as [->|Hne].
    + rewrite Hk. reflexivity.
    + destruct (Hok i ltac:(lia)) as [Hr Hn]. rewrite Hr. cbn [negb].
      destruct (extract_question_and_answers py_hash (pages i) (last_question_hash st)) as [x h'].
      assert (Ei : (i <? N - 1) = true) by (apply Nat.ltb_lt; lia).
      rewrite Ei, Hn. apply IH; [lia|lia| |exact Hk].
      intros j Hj. apply Hok. lia.
Qed.

End RunMore.

(** X9. Whatever the pages do, the records of a run are numbered
    1, 2, ..., k in order, for some k of at most [MAX_CLICKS]. *)
Theorem run_records_consecutive (py_hash : text -> Z) (N : nat) (pages : nat -> Page) :
  exists k, k <= N
    /\ map question_num (ocr_results (snd (run_automation py_hash N pages init_state))) = seq 1 k.
Proof.
  destruct (run_loop_nums py_hash N pages N 0 init_state eq_refl) as (k & Hk & Hnum).
  exists k. split; [lia|exact Hnum].
Qed.

(** X10. If the page of item [k + 1] (within [MAX_CLICKS]) never reaches
    [readyState == "complete"] while the earlier pages loaded and their
    "next" clicks succeeded, the [TimeoutException] of [wait_for_load]
    escapes [run_automation], and [main] writes no output file: the results
    of the first [k] items are lost. *)
Theorem load_timeout_loses_results (py_hash : text -> Z) (N k : nat) (pages : nat -> Page) :
  k < N ->
  (forall j, j < k -> pg_ready (pages j) = true /\ pg_next_ok (pages j) = true) ->
  pg_ready (pages k) = false ->
  fst (run_automation py_hash N pages init_state) = Raised
  /\ main_output py_hash N pages = None.
Proof.
  intros Hk Hok Hnr.
  assert (H : fst (run_automation py_hash N pages init_state) = Raised).
  { unfold run_automation. apply (run_loop_timeout py_hash N pages N 0 k); [lia|lia| |exact Hnr].
    intros j Hj. apply Hok. lia. }
  split; [exact H|]. unfold main_output.
  destruct (run_automation py_hash N pages init_state) as [[|] st]; [discriminate|reflexivity].
Qed.

Lemma load_timeout_loses_results_witness :
  1 < 3
  /\ (forall j, j < 1 -> pg_ready ((fun n => if n =? 0 then sample_page else mkPage false true [] [] [] true) j) = true
                        /\ pg_next_ok ((fun n => if n =? 0 then sample_page else mkPage false true [] [] [] true) j) = true)
  /\ pg_ready ((fun n => if n =? 0 then sample_page else mkPage false true [] [] [] true) 1) = false
  /\ fst (run_automation (fun _ => 1%Z) 3 (fun n => if n =? 0 then sample_page else mkPage false true [] [] [] true) init_state) = Raised
  /\ main_output (fun _ => 1%Z) 3 (fun n => if n =? 0 then sample_page else mkPage false true [] [] [] true) = None.
Proof.
  assert (H1 : 1 < 3) by lia.
  assert (H2 : forall j, j < 1 -> pg_ready ((fun n => if n =? 0 then sample_page else mkPage false true [] [] [] true) j) = true
                        /\ pg_next_ok ((fun n => if n =? 0 then sample_page else mkPage false true [] [] [] true) j) = true)
    by (intros j Hj; assert (j = 0) as -> by lia; split; reflexivity).
  assert (H3 : pg_ready ((fun n => if n =? 0 then sample_page else mkPage false true [] [] [] true) 1) = false)
    by reflexivity.
  split; [exact H1|]. split; [exact H2|]. split; [exact H3|].
  exact (load_timeout_loses_results (fun _ => 1%Z) 3 1 _ H1 H2 H3).
Defined.

Lemma starts_with_app (p s : text) : starts_with p (p ++ s) = true.
Proof. induction p as [|x p IH]; simpl; [reflexivity|]. rewrite Z.eqb_refl. exact IH. Qed.

Lemma filter_negb_length {A : Type} (f : A -> bool) (l : list A) :
  List.length (filter (fun x => negb (f x)) l) + List.length (filter f l) = List.length l.
Proof.
  induction l as [|x l IH]; simpl; [reflexivity|].
  destruct (f x); simpl; lia.
Qed.

(** X11. The summary of [main] counts as failed every placeholder record
    and every item the run never reached: the number it prints is
    [MAX_CLICKS] minus the number of records, plus the records whose text
    starts with "[Unable", and so is never negative. *)
Theorem summary_failed_counts (py_hash : text -> Z) (N : nat) (pages : nat -> Page) :
  (forall n, starts_with (t "[Unable") (placeholder n) = true)
  /\ summary_failed N (ocr_results (snd (run_automation py_hash N pages init_state)))
     = (Z.of_nat (N - List.length (ocr_results (snd (run_automation py_hash N pages init_state))))
        + Z.of_nat (List.length (filter (fun r => starts_with (t "[Unable") (rtext r))
                                        (ocr_results (snd (run_automation py_hash N pages init_state))))))%Z
  /\ (0 <= summary_failed N (ocr_results (snd (run_automation py_hash N pages init_state))))%Z.
Proof.
  assert (Hp : forall n, starts_with (t "[Unable") (placeholder n) = true).
  { intros n. unfold placeholder.
    change (t "[Unable to extract question ") with (t "[Unable" ++ t " to extract question ").
    rewrite <- app_assoc. apply starts_with_app. }
  destruct (run_records_consecutive py_hash N pages) as (k & Hk & Hnum).
  set (rs := ocr_results (snd (run_automation py_hash N pages init_state))) in *.
  assert (Hlen : List.length rs = k)
    by (rewrite <- (length_map question_num), Hnum, length_seq; reflexivity).
  pose proof (filter_negb_length (fun r => starts_with (t "[Unable") (rtext r)) rs) as Hf.
  unfold summary_failed, summary_successful.
  split; [exact Hp|]. split; lia.
Qed.

(* ------------------------------------------------------------------ *)
(** ** Completeness of the answer loop, and the last click *)

Lemma collect_answers_keeps (items acc : list text) (x : text) :
  In x acc -> In x (collect_answers acc items).
Proof.
  revert acc; induction items as [|it items IH]; intros acc H; simpl; [exact H|].
  destruct (_ && _); apply IH; [apply in_or_app; left|]; exact H.
Qed.

(** X12. The cleaning loop drops no usable option: every candidate text
    whose cleaned form is longer than 5 UTF-16 units ends up, cleaned, in
    the list the script truncates to five answers. *)
Theorem collect_answers_complete (items : list text) (it : text) :
  In it items -> 5 < js_length (clean_answer it) ->
  In (clean_answer it) (collect_answers [] items).
Proof.
  generalize (@nil text) as acc.
  induction items as [|x items IH]; intros acc Hin Hlen; [contradiction|]. simpl.
  destruct Hin as [->|Hin].
  - destruct (text_mem (clean_answer it) acc) eqn:Em.
    + rewrite andb_false_r. apply collect_answers_keeps, text_mem_true, Em.
    + apply Nat.ltb_lt in Hlen. rewrite Hlen. cbn [andb negb].
      apply collect_answers_keeps. apply in_or_app. right. left. reflexivity.
  - destruct (_ && _); apply IH; assumption.
Qed.

Lemma collect_answers_complete_witness :
  In (t "A  London, England") [t "A  London, England"; t "B  Berlin, Germany"]
  /\ 5 < js_length (clean_answer (t "A  London, England"))
  /\ In (clean_answer (t "A  London, England"))
        (collect_answers [] [t "A  London, England"; t "B  Berlin, Germany"]).
Proof.
  assert (H1 : In (t "A  London, England") [t "A  London, England"; t "B  Berlin, Germany"])
    by (left; reflexivity).
  assert (H2 : 5 < js_length (clean_answer (t "A  London, England"))) by (vm_compute; lia).
  split; [exact H1|]. split; [exact H2|]. exact (collect_answers_complete _ _ H1 H2).
Defined.

Section LastClick.

Variable py_hash : text -> Z.
Variable N : nat.
Variable pages : nat -> Page.

Definition clicks_before_last (tr : list Ev) : Prop :=
  forall i b, In (EvClick i b) tr -> S i < N.

Lemma clicks_before_last_app (tr evs : list Ev) :
  clicks_before_last tr -> clicks_before_last evs -> clicks_before_last (tr ++ evs).
Proof.
  intros H1 H2 i b H. apply in_app_or in H as [H|H]; [exact (H1 i b H)|exact (H2 i b H)].
Qed.

Lemma run_loop_clicks (fuel i : nat) (st : State) :
  clicks_before_last (trace st) ->
  clicks_before_last (trace (snd (run_loop py_hash N pages fuel i st))).
Proof.
  revert i st; induction fuel as [|fuel IH]; intros i st Hst; [exact Hst|].
  cbn [run_loop]. destruct (pg_ready (pages i)); cbn [negb].
  2:{ cbn [snd trace add_events]. apply clicks_before_last_app; [exact Hst|].
      intros j b [H|[]]. discriminate. }
  destruct (extract_question_and_answers py_hash (pages i) (last_question_hash st)) as [x h'].
  assert (Hst1 : clicks_before_last (trace st ++ [EvWaitLoad i true; EvExtract i x;
                                                  EvAppend (record_for i x)])).
  { apply clicks_before_last_app; [exact Hst|].
    intros j b [H|[H|[H|[]]]]; discriminate. }
  cbn beta iota zeta.
  destruct (i <? N - 1) eqn:Ei; [apply Nat.ltb_lt in Ei; destruct (pg_next_ok (pages i))|].
  - apply IH. cbn [trace add_events]. apply clicks_before_last_app; [exact Hst1|].
    intros j b [H|[]]. injection H as <- _. lia.
  - cbn [snd trace add_events]. apply clicks_before_last_app; [exact Hst1|].
    intros j b [H|[]]. injection H as <- _. lia.
  - apply IH. exact Hst1.
Qed.

End LastClick.

(** X13. [run_automation] never tries to click "next" after the last of
    the [MAX_CLICKS] items: every click attempt of the run is for an item
    [i] with [i + 1 < MAX_CLICKS]. *)
Theorem run_no_click_after_last (py_hash : text -> Z) (N : nat) (pages : nat -> Page) (i : nat) (b : bool) :
  In (EvClick i b) (trace (snd (run_automation py_hash N pages init_state))) -> S i < N.
Proof.
  apply (run_loop_clicks py_hash N pages N 0 init_state). intros j c [].
Qed.

Lemma run_no_click_after_last_witness :
  In (EvClick 0 true) (trace (snd (run_automation (fun _ => 1%Z) 2 (fun _ => sample_page) init_state)))
  /\ 1 < 2.
Proof.
  assert (H : In (EvClick 0 true) (trace (snd (run_automation (fun _ => 1%Z) 2 (fun _ => sample_page) init_state))))
    by (vm_compute; tauto).
  split; [exact H|]. exact (run_no_click_after_last _ 2 _ 0 true H).
Defined.
